(** * NeuroFlow: the rPPG heart-rate pipeline of [backend/routes/heart_rate_data.py]

    A shallow embedding of the signal-processing pipeline and of the request
    handler, and the properties of the design document proved (or refuted)
    on it.

    Conventions of the embedding.
    - A Python or numpy float is a real number ([R]): rounding is not
      modelled.  The non-finite values numpy produces instead of raising
      (the mean of an empty array, a numpy division by zero) are the extra
      value [NotFinite] of [npfloat].
    - A Python exception is the [Raise] outcome of the [result] monad; a
      function that cannot raise is a plain function.
    - The functions of scipy, numpy, OpenCV and NeuroKit2 the source calls
      are not part of the repository.  Those whose behaviour decides a
      property ([find_peaks], [filtfilt], [convolve], [np.std], ...) are
      modelled after the library's algorithm; the Butterworth design
      ([butter]) and the NeuroKit2 analysis ([nk.hrv]) are parameters. *)

From Stdlib Require Import String Reals Lra Lia ZArith List Bool Arith Sorted.
Import ListNotations.

Open Scope R_scope.

(** ** Exceptions and results *)

Inductive exn : Type :=
| ValueError
| ZeroDivisionError
| IndexError
| LinAlgError.

Inductive result (A : Type) : Type :=
| Ok (a : A)
| Raise (e : exn).

Arguments Ok {A} a.
Arguments Raise {A} e.

Definition bind {A B : Type} (m : result A) (k : A -> result B) : result B :=
  match m with
  | Ok a => k a
  | Raise e => Raise e
  end.

Notation "x <- m ;; k" := (bind m (fun x => k))
  (at level 61, m at next level, right associativity).
Notation "' p <- m ;; k" := (bind m (fun p => k))
  (at level 61, p pattern, m at next level, right associativity).

(** ** Floats *)

(** A numpy float: a real number, or the [inf]/[nan] numpy yields (with a
    RuntimeWarning) where exact arithmetic has no value. *)
Inductive npfloat : Type :=
| Finite (r : R)
| NotFinite.

Definition Rltb (a b : R) : bool := if Rlt_dec a b then true else false.
Definition Rleb (a b : R) : bool := if Rle_dec a b then true else false.
Definition Reqb (a b : R) : bool := if Req_dec_T a b then true else false.

(** [int(x)] on a float: truncation toward zero. *)
Definition py_int (r : R) : Z :=
  if Rle_dec 0 r then Int_part r else (- Int_part (- r))%Z.

(** Python float division [a / b]: raises on a zero divisor. *)
Definition py_div (a b : R) : result R :=
  if Reqb b 0 then Raise ZeroDivisionError else Ok (a / b).

(** numpy scalar division: no exception, a non-finite value on a zero divisor. *)
Definition np_div (a b : R) : npfloat :=
  if Reqb b 0 then NotFinite else Finite (a / b).

(** ** Builtins and numpy *)

Fixpoint py_min_from (cur : R) (l : list R) : R :=
  match l with
  | [] => cur
  | x :: l' => py_min_from (if Rltb x cur then x else cur) l'
  end.

Fixpoint py_max_from (cur : R) (l : list R) : R :=
  match l with
  | [] => cur
  | x :: l' => py_max_from (if Rltb cur x then x else cur) l'
  end.

(** [min(seq)], [max(seq)]: ValueError on an empty sequence. *)
Definition py_min (l : list R) : result R :=
  match l with
  | [] => Raise ValueError
  | x :: l' => Ok (py_min_from x l')
  end.

Definition py_max (l : list R) : result R :=
  match l with
  | [] => Raise ValueError
  | x :: l' => Ok (py_max_from x l')
  end.

Definition Rsum (l : list R) : R := fold_left Rplus l 0.

(** [np.mean]: [nan] on an empty array. *)
Definition np_mean (l : list R) : npfloat :=
  np_div (Rsum l) (INR (length l)).

(** [np.std] (population form, ddof = 0): the root of the mean of the
    squared deviations from the mean; [nan] on an empty array. *)
Definition np_std (l : list R) : npfloat :=
  match np_mean l with
  | Finite m =>
      match np_mean (map (fun x => (x - m) * (x - m)) l) with
      | Finite v => Finite (sqrt v)
      | NotFinite => NotFinite
      end
  | NotFinite => NotFinite
  end.

(** [np.sqrt] on a scalar. *)
Definition np_sqrt (x : npfloat) : npfloat :=
  match x with
  | Finite r => if Rltb r 0 then NotFinite else Finite (sqrt r)
  | NotFinite => NotFinite
  end.

(** [np.diff a = a[1:] - a[:-1]]. *)
Fixpoint np_diff (l : list R) : list R :=
  match l with
  | x :: ((y :: _) as l') => (y - x) :: np_diff l'
  | _ => []
  end.

(** ** scipy.signal.find_peaks *)

(** The inner loop of [_local_maxima_1d]:
    [while i_ahead < i_max and x[i_ahead] == x[i]: i_ahead += 1]. *)
Fixpoint look_ahead (fuel : nat) (x : list R) (xi : R) (i_ahead i_max : nat) : nat :=
  match fuel with
  | O => i_ahead
  | S fuel' =>
      if (i_ahead <? i_max)%nat && Reqb (nth i_ahead x 0) xi
      then look_ahead fuel' x xi (S i_ahead) i_max
      else i_ahead
  end.

(** The outer loop of [_local_maxima_1d], from the sample pointer [i]:
    the midpoints of the plateaus found, in the order found. *)
Fixpoint local_maxima_loop (fuel : nat) (x : list R) (i i_max : nat) : list nat :=
  match fuel with
  | O => []
  | S fuel' =>
      if (i <? i_max)%nat then
        if Rltb (nth (i - 1) x 0) (nth i x 0) then
          let i_ahead := look_ahead (length x) x (nth i x 0) (i + 1) i_max in
          if Rltb (nth i_ahead x 0) (nth i x 0) then
            let left_edge := i in
            let right_edge := (i_ahead - 1)%nat in
            ((left_edge + right_edge) / 2)%nat
              :: local_maxima_loop fuel' x (i_ahead + 1) i_max
          else local_maxima_loop fuel' x (i + 1) i_max
        else local_maxima_loop fuel' x (i + 1) i_max
      else []
  end.

(** [_local_maxima_1d(x)]: [i = 1], [i_max = x.shape[0] - 1]. *)
Definition local_maxima_1d (x : list R) : list nat :=
  local_maxima_loop (length x) x 1 (length x - 1).

(** [find_peaks(x, height=h)[0]]: the local maxima whose height is at least [h]
    ([keep = (hmin <= peak_heights)]). *)
Definition find_peaks (x : list R) (height : R) : list nat :=
  filter (fun p => Rleb height (nth p x 0)) (local_maxima_1d x).

(** ** scipy.signal.filtfilt and scipy.signal.convolve *)

(** [odd_ext(x, n)]: [x] extended at both ends by [n] samples mirrored
    through the end points:
    [concatenate((2*x[0] - x[n:0:-1], x, 2*x[-1] - x[-2:-(n+2):-1]))]. *)
Definition odd_ext (x : list R) (n : nat) : list R :=
  let left_end := nth 0 x 0 in
  let left_ext := rev (firstn n (skipn 1 x)) in
  let right_end := last x 0 in
  let right_ext := rev (firstn n (skipn (length x - 1 - n) x)) in
  map (fun v => 2 * left_end - v) left_ext
    ++ x
    ++ map (fun v => 2 * right_end - v) right_ext.

Definition pad_to (n : nat) (l : list R) : list R :=
  l ++ repeat 0 (n - length l).

(** Coefficients as [lfilter] and [lfilter_zi] use them: divided by [a[0]]
    and zero-padded to the common length; a missing or zero leading [a]
    coefficient is refused. *)
Definition normalize_ba (b a : list R) : result (list R * list R) :=
  match a with
  | [] => Raise ValueError
  | a0 :: _ =>
      if Reqb a0 0 then Raise ValueError
      else
        let n := Nat.max (length a) (length b) in
        Ok (pad_to n (map (fun v => v / a0) b), pad_to n (map (fun v => v / a0) a))
  end.

Fixpoint Rmap2 (f : R -> R -> R) (u v : list R) : list R :=
  match u, v with
  | x :: u', y :: v' => f x y :: Rmap2 f u' v'
  | _, _ => []
  end.

(** [lfilter_zi(b, a)]: the filter state of the step response's steady state,
    the solution of [(I - companion(a).T) zi = b[1:] - a[1:]*b[0]] in the
    closed form scipy documents next to its call of [np.linalg.solve]:
    [zi[0] = B.sum() / IminusA[:,0].sum()], [zi[k] = asum*zi[0] - csum].
    A filter with a single tap has no companion matrix (ValueError); the
    system is singular when the [a] coefficients sum to zero. *)
Definition lfilter_zi (b a : list R) : result (list R) :=
  let n := length a in
  if (n <? 2)%nat then Raise ValueError
  else
    let B := Rmap2 (fun bk ak => bk - ak * nth 0 b 0) (tl b) (tl a) in
    if Reqb (Rsum a) 0 then Raise LinAlgError
    else
      let zi0 := Rsum B / Rsum a in
      Ok (map (fun k => Rsum (firstn (S k) a) * zi0 - Rsum (firstn k B))
              (seq 0 (n - 1))).

(** [lfilter(b, a, x, zi=z)[0]]: the direct form II transposed recurrence
    [y[m] = b[0]*x[m] + z[0]], [z[i] <- b[i+1]*x[m] + z[i+1] - a[i+1]*y[m]]. *)
Fixpoint lfilter (b a x z : list R) : list R :=
  match x with
  | [] => []
  | xm :: x' =>
      let ym := nth 0 b 0 * xm + nth 0 z 0 in
      let z' := map (fun i => nth (S i) b 0 * xm + nth (S i) z 0 - nth (S i) a 0 * ym)
                    (seq 0 (length z)) in
      ym :: lfilter b a x' z'
  end.

(** [filtfilt(b, a, x)] with the default [method="pad"], [padtype="odd"],
    [padlen = 3 * max(len(a), len(b))]: ValueError unless [x] is longer than
    the pad; forward pass over the extended signal, backward pass over the
    reversed output, both started in the steady state scaled by the first
    sample; the pads are cut off. *)
Definition filtfilt (b a x : list R) : result (list R) :=
  let ntaps := Nat.max (length a) (length b) in
  let edge := (ntaps * 3)%nat in
  if (length x <=? edge)%nat then Raise ValueError
  else
    let ext := odd_ext x edge in
    ' (b', a') <- normalize_ba b a ;;
    zi <- lfilter_zi b' a' ;;
    let x0 := nth 0 ext 0 in
    let y := lfilter b' a' ext (map (fun z => z * x0) zi) in
    let y0 := last y 0 in
    let y := lfilter b' a' (rev y) (map (fun z => z * y0) zi) in
    let y := rev y in
    Ok (firstn (length y - 2 * edge) (skipn edge y)).

Fixpoint Radd_lists (u v : list R) : list R :=
  match u, v with
  | [], _ => v
  | _, [] => u
  | x :: u', y :: v' => (x + y) :: Radd_lists u' v'
  end.

Fixpoint conv_full (x h : list R) : list R :=
  match x with
  | [] => []
  | x0 :: x' => Radd_lists (map (Rmult x0) h) (0 :: conv_full x' h)
  end.

(** [convolve(in1, in2)] in the default mode ["full"]: the discrete linear
    convolution, of length [len(in1) + len(in2) - 1]; empty operands are
    refused. *)
Definition convolve (in1 in2 : list R) : result (list R) :=
  match in1, in2 with
  | [], _ => Raise ValueError
  | _, [] => Raise ValueError
  | _, _ => Ok (conv_full in1 in2)
  end.

(** ** Data of the pipeline *)

Inductive btype : Type := high | low.

Record HRVMetrics : Type := mkHRV {
  SDNN : npfloat;
  RMSSD : npfloat;
  pNN50 : npfloat
}.

(** The dictionary [give_bpm_and_hrv] returns. *)
Record BpmHrv : Type := mkBpmHrv {
  BPM : npfloat;
  HRV : HRVMetrics;
  Stress_Score : option npfloat
}.

(** The table of named metrics [nk.hrv] returns. *)
Definition hrv_table : Type := list (string * npfloat).

Fixpoint table_get (key : string) (t : hrv_table) : option npfloat :=
  match t with
  | [] => None
  | (k, v) :: t' => if String.eqb k key then Some v else table_get key t'
  end.

(** A pixel in OpenCV's channel order (blue, green, red). *)
Definition pixel : Type := (Z * Z * Z)%type.
Definition frame : Type := list (list pixel).

(** What an opened [cv2.VideoCapture] answers. *)
Record Video : Type := mkVideo {
  isOpened : bool;
  CAP_PROP_FPS : R;
  CAP_PROP_FRAME_COUNT : R;
  frames : list frame
}.

(** The two bodies the handler can return. *)
Inductive response : Type :=
| ErrorBody (error : string)
| ResultBody (r_avg : list R) (bpm : npfloat) (hrv : HRVMetrics)
             (stress_score : option npfloat).

(** ** Sequence helpers *)

(** A slice bound as Python resolves it: a negative bound counts from the
    end, and both are clamped to the sequence. *)
Definition slice_index (len : nat) (i : Z) : nat :=
  Z.to_nat (if (i <? 0)%Z then Z.max (i + Z.of_nat len) 0 else Z.min i (Z.of_nat len)).

(** [l[start:stop]]. *)
Definition py_slice {A : Type} (l : list A) (start stop : Z) : list A :=
  let s := slice_index (length l) start in
  let e := slice_index (length l) stop in
  firstn (e - s) (skipn s l).

Fixpoint list_set (l : list R) (i : nat) (v : R) : list R :=
  match l, i with
  | [], _ => []
  | _ :: l', O => v :: l'
  | x :: l', S i' => x :: list_set l' i' v
  end.

(** [arr[idx] = v] for an index array: IndexError on an index out of bounds. *)
Fixpoint set_indices (arr : list R) (idx : list nat) (v : R) : result (list R) :=
  match idx with
  | [] => Ok arr
  | i :: idx' =>
      if (i <? length arr)%nat then set_indices (list_set arr i v) idx' v
      else Raise IndexError
  end.

(** ** The source *)

Section Pipeline.

(** The Butterworth coefficients [(b, a)] scipy designs for an order, a
    normalised cutoff in (0, 1) and a band type. *)
Variable butter_design : nat -> R -> btype -> list R * list R.

(** NeuroKit2's [nk.hrv(peaks, sampling_rate, show=False)]. *)
Variable nk_hrv : list R -> Z -> result hrv_table.

(** [cv2.VideoCapture(path)]. *)
Variable VideoCapture : string -> Video.

(** [butter(N, Wn, btype, analog=False)]: a digital design wants
    [0 < Wn < 1]. *)
Definition butter (N : nat) (Wn : R) (bt : btype) : result (list R * list R) :=
  if Rleb Wn 0 || Rleb 1 Wn then Raise ValueError
  else Ok (butter_design N Wn bt).

Definition butter_highpass (cutoff fs : R) (order : nat) : result (list R * list R) :=
  let nyq := 0.5 * fs in
  normal_cutoff <- py_div cutoff nyq ;;
  butter order normal_cutoff high.

Definition butter_lowpass (cutoff fs : R) (order : nat) : result (list R * list R) :=
  let nyq := 0.5 * fs in
  normal_cutoff <- py_div cutoff nyq ;;
  butter order normal_cutoff low.

Definition filter_all (data : list R) (fs : R) (order : nat)
    (cutoff_high cutoff_low : R) : result (list R) :=
  ' (b, a) <- butter_highpass cutoff_high fs order ;;
  highpassed_signal <- filtfilt b a data ;;
  ' (d, c) <- butter_lowpass cutoff_low fs order ;;
  bandpassed_signal <- filtfilt d c highpassed_signal ;;
  Ok bandpassed_signal.

Definition process_signal (y : list R) (order_of_bandpass : nat) (high low : R)
    (sampling_rate : R) (average_filter_sample_length : nat) : result (list R) :=
  filtered_signal <- filter_all y sampling_rate order_of_bandpass high low ;;
  let squared_signal := map (fun v => v * v) filtered_signal in
  let b := map (fun v => v / INR average_filter_sample_length)
               (repeat 1 average_filter_sample_length) in
  let a := repeat 1 1%nat in
  averaged_signal <- convolve squared_signal b ;;
  averaged_signal <- filtfilt b a squared_signal ;;
  Ok averaged_signal.

Definition calculate_hrv (rr_intervals : list R) : result HRVMetrics :=
  let rr_intervals_ms := map (fun v => v * 1000) rr_intervals in
  let sdnn := np_std rr_intervals_ms in
  let rmssd := np_sqrt (np_mean (map (fun d => d * d) (np_diff rr_intervals_ms))) in
  let nn50 := length (filter (fun d => Rltb 50 (Rabs d)) (np_diff rr_intervals_ms)) in
  ratio <- py_div (INR nn50) (INR (length rr_intervals_ms)) ;;
  let pnn50 := ratio * 100 in
  Ok {| SDNN := sdnn; RMSSD := rmssd; pNN50 := Finite pnn50 |}.

Definition calculate_stress_score (peak_indices : list nat) (sampling_rate : Z)
    : result (option npfloat) :=
  last_index <- match peak_indices with
                | [] => Raise IndexError
                | _ :: _ => Ok (last peak_indices O)
                end ;;
  let binary_peaks := repeat 0 (last_index + 1) in
  binary_peaks <- set_indices binary_peaks peak_indices 1 ;;
  hrv_metrics <- nk_hrv binary_peaks sampling_rate ;;
  let stress_index := table_get "HRV_SI" hrv_metrics in
  Ok stress_index.

(** The list comprehension of [give_bpm_and_hrv]. *)
Definition rr_intervals_of (r_peaks : list nat) (time_bw_fram : R) : list R :=
  map (fun i => IZR (Z.of_nat (nth (i + 1) r_peaks O) - Z.of_nat (nth i r_peaks O))
                * time_bw_fram)
      (seq 0 (length r_peaks - 1)).

Definition degenerate_result : BpmHrv :=
  {| BPM := Finite 0;
     HRV := {| SDNN := Finite 0; RMSSD := Finite 0; pNN50 := Finite 0 |};
     Stress_Score := None |}.

Definition give_bpm_and_hrv (averaged : list R) (time_bw_fram : R) : result BpmHrv :=
  lo <- py_min averaged ;;
  hi <- py_max averaged ;;
  lo' <- py_min averaged ;;
  let r_min_peak := lo + (hi - lo') / 16 in
  let r_peaks := find_peaks averaged r_min_peak in
  let total_peaks := length r_peaks in
  if (total_peaks <=? 1)%nat then Ok degenerate_result
  else
    let rr_intervals := rr_intervals_of r_peaks time_bw_fram in
    let avg_time_bw_peaks := np_mean rr_intervals in
    let bpm := match avg_time_bw_peaks with
               | Finite avg => np_div 60 avg
               | NotFinite => NotFinite
               end in
    hrv_metrics <- calculate_hrv rr_intervals ;;
    rate <- py_div 1 time_bw_fram ;;
    stress_score <- calculate_stress_score r_peaks (py_int rate) ;;
    Ok {| BPM := bpm; HRV := hrv_metrics; Stress_Score := stress_score |}.

(** The sums of the three channels over the central window of a frame,
    and the number of pixels summed. *)
Definition window_rows (f : frame) : list (list pixel) :=
  py_slice f (Z.quot (Z.of_nat (length f) - 100) 2)
             (Z.quot (Z.of_nat (length f) + 100) 2).

Definition window_pixels (f : frame) (row : list pixel) : list pixel :=
  py_slice row (Z.quot (Z.of_nat (length (nth 0 f [])) - 100) 2)
               (Z.quot (Z.of_nat (length (nth 0 f [])) + 100) 2).

Definition frame_sums (f : frame) : R * R * R * nat :=
  fold_left
    (fun acc row =>
       fold_left
         (fun acc' (j : pixel) =>
            let '(sumr, sumg, sumb, no_of_pixels) := acc' in
            let '(j0, j1, j2) := j in
            (sumr + IZR j2, sumg + IZR j1, sumb + IZR j0, S no_of_pixels))
         (window_pixels f row) acc)
    (window_rows f) (0, 0, 0, O).

(** The [while True] loop over [video_data.read()]. *)
Fixpoint read_frames (fs : list frame) (R_ G_ B_ : list R)
    : result (list R * list R * list R) :=
  match fs with
  | [] => Ok (R_, G_, B_)
  | f :: rest =>
      let '(sumr, sumg, sumb, no_of_pixels) := frame_sums f in
      r <- py_div sumr (INR no_of_pixels) ;;
      g <- py_div sumg (INR no_of_pixels) ;;
      b <- py_div sumb (INR no_of_pixels) ;;
      read_frames rest (R_ ++ [r]) (G_ ++ [g]) (B_ ++ [b])
  end.

Definition get_beats_per_min (query : string) : result response :=
  if negb (isOpened (VideoCapture query)) then
    Ok (ErrorBody "Video file could not be opened. Please check the path.")
  else
    let video_data := VideoCapture query in
    let fps := CAP_PROP_FPS video_data in
    let frame_count := py_int (CAP_PROP_FRAME_COUNT video_data) in
    if (frame_count =? 0)%Z then Ok (ErrorBody "Video contains no frames.")
    else
      time_bw_frame <- py_div 1 fps ;;
      ' (R_, G_, B_) <- read_frames (frames video_data) [] [] [] ;;
      let R_ := py_slice R_ 100 (-100) in
      let r_cutoff_high := 10 in
      let r_cutoff_low := 100 in
      let r_order_of_bandpass := 5%nat in
      let r_sampling_rate := (8 * py_int (fps + 1))%Z in
      let r_average_filter_sample_length := 7%nat in
      r_averaged <- process_signal R_ r_order_of_bandpass r_cutoff_high r_cutoff_low
                      (IZR r_sampling_rate) r_average_filter_sample_length ;;
      bpm_and_hrv <- give_bpm_and_hrv r_averaged time_bw_frame ;;
      Ok (ResultBody r_averaged (BPM bpm_and_hrv) (HRV bpm_and_hrv)
                     (Stress_Score bpm_and_hrv)).

(** *** The components the design document names, as parts of the source *)

(** PeakDetector: lines 79-80 of [give_bpm_and_hrv]. *)
Definition peak_detector (averaged : list R) : result (list nat) :=
  lo <- py_min averaged ;;
  hi <- py_max averaged ;;
  lo' <- py_min averaged ;;
  let r_min_peak := lo + (hi - lo') / 16 in
  Ok (find_peaks averaged r_min_peak).

(** IntervalAnalyzer: lines 88-94 of [give_bpm_and_hrv]. *)
Definition interval_analyzer (r_peaks : list nat) (time_bw_fram : R)
    : list R * npfloat :=
  let rr_intervals := rr_intervals_of r_peaks time_bw_fram in
  let avg_time_bw_peaks := np_mean rr_intervals in
  let bpm := match avg_time_bw_peaks with
             | Finite avg => np_div 60 avg
             | NotFinite => NotFinite
             end in
  (rr_intervals, bpm).

(** EnvelopeExtractor: lines 48-53 of [process_signal]. *)
Definition envelope_extractor (filtered_signal : list R)
    (average_filter_sample_length : nat) : result (list R) :=
  let squared_signal := map (fun v => v * v) filtered_signal in
  let b := map (fun v => v / INR average_filter_sample_length)
               (repeat 1 average_filter_sample_length) in
  let a := repeat 1 1%nat in
  averaged_signal <- convolve squared_signal b ;;
  averaged_signal <- filtfilt b a squared_signal ;;
  Ok averaged_signal.


End Pipeline.

(** ** The design document's definitions *)

(** A sample greater than both its neighbours. *)
Definition strict_local_max (x : list R) (i : nat) : Prop :=
  (0 < i)%nat /\ (i + 1 < length x)%nat
  /\ nth (i - 1) x 0 < nth i x 0 /\ nth (i + 1) x 0 < nth i x 0.

(** A run [l..r] of equal samples, away from both ends of the signal, whose
    neighbours on both sides are lower. *)
Definition plateau (x : list R) (l r : nat) : Prop :=
  (0 < l)%nat /\ (l <= r)%nat /\ (r + 1 < length x)%nat
  /\ (forall k, (l <= k <= r)%nat -> nth k x 0 = nth l x 0)
  /\ nth (l - 1) x 0 < nth l x 0 /\ nth (r + 1) x 0 < nth l x 0.

Definition is_minimum (m : R) (x : list R) : Prop :=
  In m x /\ forall v, In v x -> m <= v.

Definition is_maximum (m : R) (x : list R) : Prop :=
  In m x /\ forall v, In v x -> v <= m.

(** Sum of [f 0 + ... + f (n-1)]. *)
Fixpoint big_sum (f : nat -> R) (n : nat) : R :=
  match n with
  | O => 0
  | S n' => big_sum f n' + f n'
  end.

Definition mean_of (x : list R) : R :=
  big_sum (fun i => nth i x 0) (length x) / INR (length x).

(** Population standard deviation. *)
Definition population_std (x : list R) : R :=
  sqrt (big_sum (fun i => (nth i x 0 - mean_of x) ^ 2) (length x) / INR (length x)).

(** The [i]-th successive difference. *)
Definition successive_difference (x : list R) (i : nat) : R :=
  nth (i + 1) x 0 - nth i x 0.

(** Root of the mean of the squared successive differences. *)
Definition rmssd_of (x : list R) : R :=
  sqrt (big_sum (fun i => (successive_difference x i) ^ 2) (length x - 1)
        / INR (length x - 1)).

(** Number of successive differences larger than 50 in absolute value. *)
Fixpoint count_nn50 (x : list R) (n : nat) : nat :=
  match n with
  | O => O
  | S n' => (count_nn50 x n' + if Rltb 50 (Rabs (successive_difference x n')) then 1 else 0)%nat
  end.

Definition pnn50_of (x : list R) : R :=
  100 * INR (count_nn50 x (length x - 1)) / INR (length x).

(** The causal moving average over the last [w] samples; [hist] holds the
    samples before the current one, the most recent first. *)
Fixpoint moving_average (w : nat) (hist x : list R) : list R :=
  match x with
  | [] => []
  | xm :: x' =>
      let window := firstn w (xm :: hist) in
      Rsum window / INR w :: moving_average w window x'
  end.

(** The moving average run forward and then backward over the signal
    extended by [3 * w] mirrored samples at both ends, each run started on
    a history that repeats its first sample; the extension is cut off. *)
Definition zero_phase_moving_average (w : nat) (x : list R) : list R :=
  let edge := (w * 3)%nat in
  let ext := odd_ext x edge in
  let forward := moving_average w (repeat (nth 0 ext 0) w) ext in
  let backward := moving_average w (repeat (last forward 0) w) (rev forward) in
  let y := rev backward in
  firstn (length y - 2 * edge) (skipn edge y).

(** Strictly increasing indices. *)
Definition strictly_increasing (l : list nat) : Prop :=
  forall i j, (i < j < length l)%nat -> (nth i l O < nth j l O)%nat.

(** ** Shapes of signals and frames *)

(** A signal that never falls, and one that never rises. *)
Definition non_decreasing (x : list R) : Prop :=
  forall i, (i + 1 < length x)%nat -> nth i x 0 <= nth (i + 1) x 0.

Definition non_increasing (x : list R) : Prop :=
  forall i, (i + 1 < length x)%nat -> nth (i + 1) x 0 <= nth i x 0.

(** A frame of [h] rows of [w] pixels each. *)
Definition rectangular (f : frame) (h w : nat) : Prop :=
  length f = h /\ forall row, In row f -> length row = w.

(** ** Sample inputs *)

(** A stand-in for the Butterworth design: N + 1 coefficients each. *)
Definition sample_design (N : nat) (Wn : R) (bt : btype) : list R * list R :=
  (repeat 1 (S N), repeat 1 (S N)).

(** A clip of ten frames of one black pixel, at 30 frames per second. *)
Definition short_clip : Video :=
  {| isOpened := true;
     CAP_PROP_FPS := 30;
     CAP_PROP_FRAME_COUNT := 10;
     frames := repeat [[(0, 0, 0)%Z]] 10 |}.

(** ** The window of a frame *)

(** One step of the two nested [for] loops of the handler. *)
Definition add_pixel (acc : R * R * R * nat) (j : pixel) : R * R * R * nat :=
  let '(sumr, sumg, sumb, no_of_pixels) := acc in
  let '(j0, j1, j2) := j in
  (sumr + IZR j2, sumg + IZR j1, sumb + IZR j0, S no_of_pixels).

(** The channels of a pixel as the loops read them: [j[2]], [j[1]], [j[0]]. *)
Definition red_of (j : pixel) : R := IZR (snd j).
Definition green_of (j : pixel) : R := IZR (snd (fst j)).
Definition blue_of (j : pixel) : R := IZR (fst (fst j)).

(** The pixels the loops visit, in the order visited. *)
Definition window_of (f : frame) : list pixel :=
  concat (map (window_pixels f) (window_rows f)).

(** A clip of 300 black frames at 24 frames per second. *)
Definition slow_clip : Video :=
  {| isOpened := true;
     CAP_PROP_FPS := 24;
     CAP_PROP_FRAME_COUNT := 300;
     frames := repeat [[(0, 0, 0)%Z]] 300 |}.

(** A clip of 222 black frames at 30 frames per second. *)
Definition long_clip : Video :=
  {| isOpened := true;
     CAP_PROP_FPS := 30;
     CAP_PROP_FRAME_COUNT := 222;
     frames := repeat [[(0, 0, 0)%Z]] 222 |}.

(** The same clip with every pixel passed through [g]. *)
Definition map_pixels (g : pixel -> pixel) (v : Video) : Video :=
  {| isOpened := isOpened v;
     CAP_PROP_FPS := CAP_PROP_FPS v;
     CAP_PROP_FRAME_COUNT := CAP_PROP_FRAME_COUNT v;
     frames := map (map (map g)) (frames v) |}.

(** A pixel with its green and blue channels cleared. *)
Definition keep_red (j : pixel) : pixel := (0%Z, 0%Z, snd j).

(** ** Comparisons and results *)

Lemma Rltb_true_iff (a b : R) : Rltb a b = true <-> a < b.
Proof. unfold Rltb. destruct (Rlt_dec a b); split; intros; congruence || lra. Qed.

Lemma Rltb_false_iff (a b : R) : Rltb a b = false <-> b <= a.
Proof. unfold Rltb. destruct (Rlt_dec a b); split; intros; congruence || lra. Qed.

Lemma Rleb_true_iff (a b : R) : Rleb a b = true <-> a <= b.
Proof. unfold Rleb. destruct (Rle_dec a b); split; intros; congruence || lra. Qed.

Lemma Rleb_false_iff (a b : R) : Rleb a b = false <-> b < a.
Proof. unfold Rleb. destruct (Rle_dec a b); split; intros; congruence || lra. Qed.

Lemma Reqb_true_iff (a b : R) : Reqb a b = true <-> a = b.
Proof. unfold Reqb. destruct (Req_dec_T a b); split; intros; congruence. Qed.

Lemma Reqb_false_iff (a b : R) : Reqb a b = false <-> a <> b.
Proof. unfold Reqb. destruct (Req_dec_T a b); split; intros; congruence. Qed.

(** Decide the comparisons of closed real expressions in the goal. *)
Ltac rcompare :=
  repeat match goal with
  | |- context [Rltb ?a ?b] =>
      first [ rewrite (proj2 (Rltb_true_iff a b)) by lra
            | rewrite (proj2 (Rltb_false_iff a b)) by lra ]
  | |- context [Rleb ?a ?b] =>
      first [ rewrite (proj2 (Rleb_true_iff a b)) by lra
            | rewrite (proj2 (Rleb_false_iff a b)) by lra ]
  | |- context [Reqb ?a ?b] =>
      first [ rewrite (proj2 (Reqb_true_iff a b)) by lra
            | rewrite (proj2 (Reqb_false_iff a b)) by lra ]
  end.



(** Unfolding equations, for evaluation on concrete signals. *)

Lemma py_min_from_cons cur x l :
  py_min_from cur (x :: l) = py_min_from (if Rltb x cur then x else cur) l.
Proof. reflexivity. Qed.

Lemma py_max_from_cons cur x l :
  py_max_from cur (x :: l) = py_max_from (if Rltb cur x then x else cur) l.
Proof. reflexivity. Qed.

Lemma look_ahead_S fuel x xi i_ahead i_max :
  look_ahead (S fuel) x xi i_ahead i_max =
  if (i_ahead <? i_max)%nat && Reqb (nth i_ahead x 0) xi
  then look_ahead fuel x xi (S i_ahead) i_max
  else i_ahead.
Proof. reflexivity. Qed.

Lemma local_maxima_loop_S fuel x i i_max :
  local_maxima_loop (S fuel) x i i_max =
  if (i <? i_max)%nat then
    if Rltb (nth (i - 1) x 0) (nth i x 0) then
      let i_ahead := look_ahead (length x) x (nth i x 0) (i + 1) i_max in
      if Rltb (nth i_ahead x 0) (nth i x 0) then
        ((i + (i_ahead - 1)) / 2)%nat :: local_maxima_loop fuel x (i_ahead + 1) i_max
      else local_maxima_loop fuel x (i + 1) i_max
    else local_maxima_loop fuel x (i + 1) i_max
  else [].
Proof. reflexivity. Qed.

Lemma py_min_from_nil cur : py_min_from cur [] = cur.
Proof. reflexivity. Qed.

Lemma py_max_from_nil cur : py_max_from cur [] = cur.
Proof. reflexivity. Qed.

Lemma look_ahead_O x xi i_ahead i_max : look_ahead O x xi i_ahead i_max = i_ahead.
Proof. reflexivity. Qed.

Lemma local_maxima_loop_O x i i_max : local_maxima_loop O x i i_max = [].
Proof. reflexivity. Qed.

Ltac rstep :=
  first [ rewrite py_min_from_cons | rewrite py_max_from_cons
        | rewrite py_min_from_nil | rewrite py_max_from_nil
        | rewrite !look_ahead_S | rewrite !look_ahead_O
        | rewrite local_maxima_loop_S | rewrite local_maxima_loop_O ].

Ltac rsimpl :=
  cbn -[Rltb Rleb Reqb IZR INR Rdiv Rinv Rplus Rminus Rmult Ropp sqrt Rabs
        py_min_from py_max_from look_ahead local_maxima_loop].

Ltac reval := rsimpl; rcompare; repeat (rstep; rsimpl; rcompare).

(** ** The peak detector *)

Lemma midpoint_bounds (l r : nat) : (l <= r -> l <= (l + r) / 2 <= r)%nat.
Proof.
  intros H. split.
  - apply Nat.div_le_lower_bound; lia.
  - apply Nat.Div0.div_le_upper_bound; lia.
Qed.

(** The look-ahead stops at the first sample that differs from [xi], or at
    [i_max]. *)
Lemma look_ahead_spec (x : list R) (xi : R) (i_max : nat) :
  forall fuel ia, (i_max <= fuel + ia)%nat ->
    let r := look_ahead fuel x xi ia i_max in
    (ia <= r)%nat /\ ((ia <= i_max)%nat -> (r <= i_max)%nat)
    /\ (forall k, (ia <= k < r)%nat -> nth k x 0 = xi)
    /\ ((r < i_max)%nat -> nth r x 0 <> xi).
Proof.
  induction fuel as [|fuel IH]; intros ia Hfuel; cbv zeta.
  - cbn. repeat split; intros; lia.
  - rewrite look_ahead_S.
    destruct (Nat.ltb_spec ia i_max) as [Hlt|Hge]; cbn [andb].
    + destruct (Reqb (nth ia x 0) xi) eqn:E.
      * apply Reqb_true_iff in E.
        destruct (IH (S ia)) as (H1 & H2 & H3 & H4); [lia|].
        split; [lia|]. split; [intros; apply H2; lia|]. split; [|exact H4].
        intros k Hk. destruct (Nat.eq_dec k ia) as [->|Hne]; auto.
        apply H3. lia.
      * apply Reqb_false_iff in E.
        repeat split; intros; auto; lia.
    + repeat split; intros; lia.
Qed.

Section LocalMaxima.

Variable x : list R.
Let i_max := (length x - 1)%nat.

(** A plateau that starts at [l] ends where the look-ahead from [l + 1]
    stops. *)
Lemma plateau_right_edge (l r : nat) :
  plateau x l r ->
  look_ahead (length x) x (nth l x 0) (l + 1) i_max = (r + 1)%nat.
Proof.
  intros (Hl & Hlr & Hr & Heq & Hlo & Hhi).
  destruct (look_ahead_spec x (nth l x 0) i_max (length x) (l + 1))
    as (H1 & H2 & H3 & H4); [unfold i_max; lia|].
  set (ia := look_ahead (length x) x (nth l x 0) (l + 1) i_max) in *.
  assert (Hia : (ia <= i_max)%nat) by (apply H2; unfold i_max; lia).
  destruct (Nat.lt_trichotomy ia (r + 1)) as [Hlt|[Heq'|Hgt]]; auto.
  - exfalso. apply H4; [unfold i_max in *; lia|].
    apply Heq. lia.
  - exfalso. specialize (H3 (r + 1)%nat). rewrite H3 in Hhi by lia. lra.
Qed.

Lemma no_plateau_from (i : nat) :
  (i_max <= i)%nat -> forall l r, plateau x l r -> (i <= l)%nat -> False.
Proof.
  intros Hi l r Hp Hl. destruct Hp as (_ & Hlr & Hr & _). unfold i_max in Hi. lia.
Qed.

Lemma local_maxima_loop_spec :
  forall fuel i, (1 <= i)%nat -> (i_max < fuel + i)%nat ->
    let out := local_maxima_loop fuel x i i_max in
    (forall p, In p out <->
               exists l r, plateau x l r /\ (i <= l)%nat /\ p = ((l + r) / 2)%nat)
    /\ StronglySorted lt out
    /\ Forall (fun p => (i <= p)%nat) out.
Proof.
  induction fuel as [|fuel IH]; intros i Hi Hfuel; cbv zeta.
  - cbn. split; [|split; constructor].
    intros p; split; [contradiction|].
    intros (l & r & Hp & Hl & _). eapply (no_plateau_from i); eauto. lia.
  - rewrite local_maxima_loop_S.
    destruct (Nat.ltb_spec i i_max) as [Hlt|Hge].
    2:{ split; [|split; constructor].
        intros p; split; [contradiction|].
        intros (l & r & Hp & Hl & _). eapply (no_plateau_from i); eauto. }
    assert (Hskip : forall i', (i < i')%nat ->
              (forall l r, plateau x l r -> (i <= l)%nat -> (i' <= l)%nat) ->
              (forall p, In p (local_maxima_loop fuel x i' i_max) <->
                 exists l r, plateau x l r /\ (i <= l)%nat /\ p = ((l + r) / 2)%nat)
              /\ StronglySorted lt (local_maxima_loop fuel x i' i_max)
              /\ Forall (fun p => (i <= p)%nat) (local_maxima_loop fuel x i' i_max)).
    { intros i' Hi' Hnone. destruct (IH i') as (A & B & C); [lia|lia|].
      split; [|split; auto].
      - intros p; split.
        + intros Hin. apply A in Hin. destruct Hin as (l & r & Hp & Hl & Hm).
          exists l, r. split; [auto|split; [lia|auto]].
        + intros (l & r & Hp & Hl & Hm). apply A. exists l, r.
          split; [auto|split; eauto].
      - eapply Forall_impl; [|exact C]. cbv beta. intros. lia. }
    destruct (Rltb (nth (i - 1) x 0) (nth i x 0)) eqn:Eup.
    2:{ apply Rltb_false_iff in Eup.
        apply Hskip; [lia|].
        intros l r Hp Hl. destruct (Nat.eq_dec l i) as [->|]; [|lia].
        destruct Hp as (_ & _ & _ & _ & Hlo & _). lra. }
    apply Rltb_true_iff in Eup. cbv zeta.
    destruct (look_ahead_spec x (nth i x 0) i_max (length x) (i + 1))
      as (H1 & H2 & H3 & H4); [unfold i_max; lia|].
    set (ia := look_ahead (length x) x (nth i x 0) (i + 1) i_max) in *.
    assert (Hia : (ia <= i_max)%nat) by (apply H2; lia).
    assert (Hrun : forall k, (i <= k < ia)%nat -> nth k x 0 = nth i x 0).
    { intros k Hk. destruct (Nat.eq_dec k i) as [->|]; auto. apply H3. lia. }
    destruct (Rltb (nth ia x 0) (nth i x 0)) eqn:Edown.
    + apply Rltb_true_iff in Edown.
      assert (Hplat : plateau x i (ia - 1)).
      { unfold plateau. split; [lia|]. split; [lia|]. split; [unfold i_max in *; lia|].
        split; [intros k Hk; apply Hrun; lia|]. split; [exact Eup|].
        replace (ia - 1 + 1)%nat with ia by lia. exact Edown. }
      destruct (midpoint_bounds i (ia - 1)) as [Hm1 Hm2]; [lia|].
      destruct (IH (ia + 1)%nat) as (A & B & C); [lia|lia|].
      split; [|split].
      * intros p; split.
        -- intros [Hp|Hp].
           ++ exists i, (ia - 1)%nat. split; [exact Hplat|split; [lia|auto]].
           ++ apply A in Hp. destruct Hp as (l & r & Hp & Hl & Hm).
              exists l, r. split; [auto|split; [lia|auto]].
        -- intros (l & r & Hp & Hl & Hm).
           destruct (Nat.eq_dec l i) as [->|Hne].
           ++ left. pose proof (plateau_right_edge _ _ Hp) as Hr.
              fold ia in Hr. subst p. f_equal. lia.
           ++ right. apply A. exists l, r. split; [auto|split; [|auto]].
              destruct (le_lt_dec l ia) as [Hle|]; [exfalso|lia].
              destruct Hp as (_ & _ & _ & _ & Hlo & _).
              destruct (Nat.eq_dec l ia) as [->|].
              ** rewrite (Hrun (ia - 1)%nat) in Hlo by lia. lra.
              ** rewrite (Hrun (l - 1)%nat), (Hrun l) in Hlo by lia. lra.
      * constructor; auto.
        eapply Forall_impl; [|exact C]. cbv beta. intros. lia.
      * constructor; [lia|].
        eapply Forall_impl; [|exact C]. cbv beta. intros. lia.
    + apply Rltb_false_iff in Edown.
      apply Hskip; [lia|].
      intros l r Hp Hl. destruct (Nat.eq_dec l i) as [->|]; [|lia].
      exfalso. pose proof (plateau_right_edge _ _ Hp) as Hr. fold ia in Hr.
      destruct Hp as (_ & _ & _ & _ & _ & Hhi). rewrite <- Hr in Hhi. lra.
Qed.

(** [_local_maxima_1d] returns the midpoints of the plateaus, in
    ascending order. *)
Lemma local_maxima_1d_spec :
  (forall p, In p (local_maxima_1d x) <->
             exists l r, plateau x l r /\ p = ((l + r) / 2)%nat)
  /\ StronglySorted lt (local_maxima_1d x).
Proof.
  unfold local_maxima_1d.
  destruct (local_maxima_loop_spec (length x) 1) as (A & B & _);
    [lia|unfold i_max; lia|].
  fold i_max. split; auto. intros p. rewrite A. split.
  - intros (l & r & Hp & _ & Hm). eauto.
  - intros (l & r & Hp & Hm). exists l, r. split; [auto|split; [apply Hp|auto]].
Qed.

End LocalMaxima.

(** [min] and [max] return the least and the greatest sample. *)

Lemma py_min_from_spec (l : list R) :
  forall cur, let m := py_min_from cur l in
    (m = cur \/ In m l) /\ m <= cur /\ forall v, In v l -> m <= v.
Proof.
  induction l as [|x l IH]; intros cur; cbn.
  - split; [auto|split; [lra|contradiction]].
  - destruct (IH (if Rltb x cur then x else cur)) as (A & B & C).
    destruct (Rltb x cur) eqn:E;
      [apply Rltb_true_iff in E|apply Rltb_false_iff in E].
    + split; [destruct A as [A|A]; auto|]. split; [lra|].
      intros v [<-|Hv]; auto.
    + split; [destruct A as [A|A]; auto|]. split; [lra|].
      intros v [<-|Hv]; [lra|auto].
Qed.

Lemma py_max_from_spec (l : list R) :
  forall cur, let m := py_max_from cur l in
    (m = cur \/ In m l) /\ cur <= m /\ forall v, In v l -> v <= m.
Proof.
  induction l as [|x l IH]; intros cur; cbn.
  - split; [auto|split; [lra|contradiction]].
  - destruct (IH (if Rltb cur x then x else cur)) as (A & B & C).
    destruct (Rltb cur x) eqn:E;
      [apply Rltb_true_iff in E|apply Rltb_false_iff in E].
    + split; [destruct A as [A|A]; auto|]. split; [lra|].
      intros v [<-|Hv]; auto.
    + split; [destruct A as [A|A]; auto|]. split; [lra|].
      intros v [<-|Hv]; [lra|auto].
Qed.

Lemma py_min_spec (x : list R) (m : R) : py_min x = Ok m -> is_minimum m x.
Proof.
  destruct x as [|x0 x]; cbn; [discriminate|]. intros [= <-].
  destruct (py_min_from_spec x x0) as (A & B & C). split.
  - destruct A as [->|A]; [left|right]; auto.
  - intros v [<-|Hv]; auto.
Qed.

Lemma py_max_spec (x : list R) (m : R) : py_max x = Ok m -> is_maximum m x.
Proof.
  destruct x as [|x0 x]; cbn; [discriminate|]. intros [= <-].
  destruct (py_max_from_spec x x0) as (A & B & C). split.
  - destruct A as [->|A]; [left|right]; auto.
  - intros v [<-|Hv]; auto.
Qed.

(** The detector answers exactly on a non-empty envelope, with the
    threshold of line 79. *)
Lemma peak_detector_Ok (averaged : list R) (peaks : list nat) :
  peak_detector averaged = Ok peaks ->
  exists lo hi, py_min averaged = Ok lo /\ py_max averaged = Ok hi
                /\ peaks = find_peaks averaged (lo + (hi - lo) / 16).
Proof.
  unfold peak_detector. destruct (py_min averaged) as [lo|e] eqn:Emin; cbn; [|discriminate].
  destruct (py_max averaged) as [hi|e] eqn:Emax; cbn; [|discriminate].
  intros [= <-]. eauto.
Qed.

Lemma peak_detector_nonempty (averaged : list R) :
  averaged <> [] -> exists peaks, peak_detector averaged = Ok peaks.
Proof.
  destruct averaged as [|a l]; [congruence|]. intros _.
  unfold peak_detector. cbn. eauto.
Qed.

Lemma StronglySorted_filter {A : Type} (Rel : A -> A -> Prop) (f : A -> bool) (l : list A) :
  StronglySorted Rel l -> StronglySorted Rel (filter f l).
Proof.
  induction 1 as [|a l Hl IH Ha]; cbn; [constructor|].
  destruct (f a); auto. constructor; auto.
  rewrite Forall_forall in *. intros y Hy. apply filter_In in Hy. apply Ha, Hy.
Qed.

Lemma StronglySorted_nth (l : list nat) :
  StronglySorted lt l -> strictly_increasing l.
Proof.
  induction 1 as [|a l Hl IH Ha]; intros i j Hij; cbn in *; [lia|].
  destruct j as [|j]; [lia|]. destruct i as [|i].
  - rewrite Forall_forall in Ha. apply Ha, nth_In. lia.
  - apply IH. lia.
Qed.

(** What [find_peaks] with a height returns. *)
Lemma find_peaks_spec (x : list R) (h : R) :
  (forall p, In p (find_peaks x h) <->
             (exists l r, plateau x l r /\ p = ((l + r) / 2)%nat) /\ h <= nth p x 0)
  /\ StronglySorted lt (find_peaks x h).
Proof.
  destruct (local_maxima_1d_spec x) as [A B]. unfold find_peaks. split.
  - intros p. rewrite filter_In, A, Rleb_true_iff. tauto.
  - apply StronglySorted_filter, B.
Qed.

(** The midpoint of a plateau is one of its samples. *)
Lemma plateau_midpoint (x : list R) (l r : nat) :
  plateau x l r ->
  (l <= (l + r) / 2 <= r)%nat /\ nth ((l + r) / 2) x 0 = nth l x 0.
Proof.
  intros (Hl & Hlr & Hr & Heq & _). pose proof (midpoint_bounds l r Hlr). auto.
Qed.

(** A strict local maximum is a plateau of one sample. *)
Lemma strict_local_max_plateau (x : list R) (i : nat) :
  strict_local_max x i <-> plateau x i i.
Proof.
  unfold strict_local_max, plateau. split.
  - intros (A & B & C & D). repeat (split; try lia); auto.
    intros k Hk. f_equal. lia.
  - intros (A & B & C & D & E & F). auto.
Qed.

(** [give_bpm_and_hrv] is the peak detector followed by the guard, the
    interval analyzer, the HRV calculator and the stress estimator. *)
Lemma give_bpm_and_hrv_components nk_hrv (averaged : list R) (time_bw_fram : R) :
  give_bpm_and_hrv nk_hrv averaged time_bw_fram =
  (r_peaks <- peak_detector averaged ;;
   if (length r_peaks <=? 1)%nat then Ok degenerate_result
   else
     hrv_metrics <- calculate_hrv (fst (interval_analyzer r_peaks time_bw_fram)) ;;
     rate <- py_div 1 time_bw_fram ;;
     stress_score <- calculate_stress_score nk_hrv r_peaks (py_int rate) ;;
     Ok {| BPM := snd (interval_analyzer r_peaks time_bw_fram);
           HRV := hrv_metrics;
           Stress_Score := stress_score |}).
Proof.
  unfold give_bpm_and_hrv, peak_detector.
  destruct (py_min averaged) as [lo|e]; cbn; [|reflexivity].
  destruct (py_max averaged) as [hi|e]; cbn; reflexivity.
Qed.

(** ** Evaluation on concrete envelopes *)

Example peaks_of_two_pulses : peak_detector [0; 1; 0; 1; 0] = Ok [1%nat; 3%nat].
Proof. unfold peak_detector, py_min, py_max, find_peaks, local_maxima_1d. reval. reflexivity. Qed.

Example peaks_of_one_pulse : peak_detector [0; 1; 0] = Ok [1%nat].
Proof. unfold peak_detector, py_min, py_max, find_peaks, local_maxima_1d. reval. reflexivity. Qed.

Example peaks_of_flat_top : peak_detector [0; 1; 1; 0] = Ok [1%nat].
Proof. unfold peak_detector, py_min, py_max, find_peaks, local_maxima_1d. reval. reflexivity. Qed.

(** ** C1: the degenerate result *)

(** C1. Whenever the peak detector finds fewer than 2 peaks in the envelope,
    [give_bpm_and_hrv] raises nothing and returns exactly the degenerate
    result: BPM 0, HRV {SDNN 0, RMSSD 0, pNN50 0}, no stress score. *)
Theorem give_bpm_and_hrv_degenerate nk_hrv (averaged : list R) (time_bw_fram : R)
    (peaks : list nat) :
  peak_detector averaged = Ok peaks ->
  (length peaks < 2)%nat ->
  give_bpm_and_hrv nk_hrv averaged time_bw_fram =
  Ok {| BPM := Finite 0;
        HRV := {| SDNN := Finite 0; RMSSD := Finite 0; pNN50 := Finite 0 |};
        Stress_Score := None |}.
Proof.
  intros Hdet Hlen. rewrite give_bpm_and_hrv_components, Hdet. cbn [bind].
  destruct (Nat.leb_spec (length peaks) 1) as [_|H]; [reflexivity|lia].
Qed.

Lemma give_bpm_and_hrv_degenerate_witness :
  give_bpm_and_hrv (fun _ _ => Raise ValueError) [0; 1; 0] (1 / 30) =
  Ok {| BPM := Finite 0;
        HRV := {| SDNN := Finite 0; RMSSD := Finite 0; pNN50 := Finite 0 |};
        Stress_Score := None |}.
Proof.
  apply (give_bpm_and_hrv_degenerate _ [0; 1; 0] (1 / 30) [1%nat]).
  - exact peaks_of_one_pulse.
  - cbn. lia.
Defined.

(** ** C9: the detected indices *)

(** C9. Every index the peak detector returns lies strictly between the two
    end points of the envelope, and the indices are strictly increasing. *)
Theorem peak_detector_interior_increasing (averaged : list R) (peaks : list nat) :
  peak_detector averaged = Ok peaks ->
  (forall p, In p peaks -> (0 < p < length averaged - 1)%nat)
  /\ strictly_increasing peaks.
Proof.
  intros Hdet. apply peak_detector_Ok in Hdet. destruct Hdet as (lo & hi & _ & _ & ->).
  destruct (find_peaks_spec averaged (lo + (hi - lo) / 16)) as [A B]. split.
  - intros p Hp. apply A in Hp. destruct Hp as [(l & r & Hpl & ->) _].
    destruct (plateau_midpoint _ _ _ Hpl) as [Hm _].
    destruct Hpl as (Hl & Hlr & Hr & _). lia.
  - apply StronglySorted_nth, B.
Qed.

Lemma peak_detector_interior_increasing_witness :
  (forall p, In p [1%nat; 3%nat] -> (0 < p < length [0; 1; 0; 1; 0] - 1)%nat)
  /\ strictly_increasing [1%nat; 3%nat].
Proof.
  apply (peak_detector_interior_increasing [0; 1; 0; 1; 0] [1%nat; 3%nat]).
  exact peaks_of_two_pulses.
Defined.

(** ** C4: which samples are peaks *)

(** C4, as stated, fails on a flat-topped pulse: the detector reports the
    sample 1 of [0, 1, 1, 0], which is not greater than its right neighbour. *)
Lemma flat_top_peak_not_strict :
  peak_detector [0; 1; 1; 0] = Ok [1%nat]
  /\ ~ strict_local_max [0; 1; 1; 0] 1.
Proof.
  split; [exact peaks_of_flat_top|].
  unfold strict_local_max. cbn. intros (_ & _ & _ & H). lra.
Qed.

(** C4, amended. On a non-empty envelope the detector answers; its threshold
    is min + (max - min)/16; it returns, in ascending order, exactly the
    midpoints (rounded down) of the plateaus - runs of equal samples with a
    lower sample on either side - whose height is at least the threshold.
    A strict local maximum is a plateau of one sample: it is a peak exactly
    when its value is at least the threshold. *)
Theorem peak_detector_plateaus (averaged : list R) :
  averaged <> [] ->
  exists peaks lo hi,
    peak_detector averaged = Ok peaks
    /\ is_minimum lo averaged /\ is_maximum hi averaged
    /\ (forall p, In p peaks <->
          (exists l r, plateau averaged l r /\ p = ((l + r) / 2)%nat)
          /\ lo + (hi - lo) / 16 <= nth p averaged 0)
    /\ strictly_increasing peaks
    /\ (forall i, strict_local_max averaged i ->
          (In i peaks <-> lo + (hi - lo) / 16 <= nth i averaged 0)).
Proof.
  intros Hne. destruct (peak_detector_nonempty averaged Hne) as [peaks Hdet].
  destruct (peak_detector_Ok _ _ Hdet) as (lo & hi & Hlo & Hhi & ->).
  exists (find_peaks averaged (lo + (hi - lo) / 16)), lo, hi.
  destruct (find_peaks_spec averaged (lo + (hi - lo) / 16)) as [A B].
  split; [exact Hdet|]. split; [apply py_min_spec, Hlo|].
  split; [apply py_max_spec, Hhi|]. split; [exact A|].
  split; [apply StronglySorted_nth, B|].
  intros i Hi. rewrite A. split; [tauto|]. intros Hthr. split; auto.
  exists i, i. split; [apply strict_local_max_plateau, Hi|].
  replace (i + i)%nat with (i * 2)%nat by lia. symmetry. apply Nat.div_mul. lia.
Qed.

Lemma peak_detector_plateaus_witness :
  exists peaks lo hi,
    peak_detector [0; 1; 1; 0] = Ok peaks
    /\ is_minimum lo [0; 1; 1; 0] /\ is_maximum hi [0; 1; 1; 0]
    /\ (forall p, In p peaks <->
          (exists l r, plateau [0; 1; 1; 0] l r /\ p = ((l + r) / 2)%nat)
          /\ lo + (hi - lo) / 16 <= nth p [0; 1; 1; 0] 0)
    /\ strictly_increasing peaks
    /\ (forall i, strict_local_max [0; 1; 1; 0] i ->
          (In i peaks <-> lo + (hi - lo) / 16 <= nth i [0; 1; 1; 0] 0)).
Proof.
  apply (peak_detector_plateaus [0; 1; 1; 0]). discriminate.
Defined.

(** ** Sums, means and differences *)

Lemma Rsum_app (l : list R) (v : R) : Rsum (l ++ [v]) = Rsum l + v.
Proof. unfold Rsum. rewrite fold_left_app. reflexivity. Qed.

Lemma fold_left_Rplus_acc (l : list R) (a : R) :
  fold_left Rplus l a = a + Rsum l.
Proof.
  unfold Rsum. revert a. induction l as [|x l IH]; intros a; cbn; [lra|].
  rewrite (IH (a + x)), (IH (0 + x)). lra.
Qed.

Lemma Rsum_cons (x : R) (l : list R) : Rsum (x :: l) = x + Rsum l.
Proof. unfold Rsum at 1. cbn. rewrite fold_left_Rplus_acc. lra. Qed.

Lemma big_sum_ext (f g : nat -> R) (n : nat) :
  (forall i, (i < n)%nat -> f i = g i) -> big_sum f n = big_sum g n.
Proof.
  induction n as [|n IH]; intros H; cbn; [reflexivity|].
  rewrite IH, H by (intros; auto with arith). reflexivity.
Qed.

Lemma firstn_snoc {A : Type} (l : list A) (d : A) (n : nat) :
  (n < length l)%nat -> firstn (S n) l = firstn n l ++ [nth n l d].
Proof.
  revert n. induction l as [|x l IH]; intros n Hn; cbn in *; [lia|].
  destruct n as [|n]; cbn; [reflexivity|]. f_equal. apply IH. lia.
Qed.

Lemma Rsum_firstn (l : list R) (n : nat) :
  (n <= length l)%nat -> Rsum (firstn n l) = big_sum (fun i => nth i l 0) n.
Proof.
  induction n as [|n IH]; intros Hn; cbn [big_sum]; [reflexivity|].
  rewrite (firstn_snoc l 0) by lia. rewrite Rsum_app, IH by lia. reflexivity.
Qed.

Lemma Rsum_big_sum (l : list R) : Rsum l = big_sum (fun i => nth i l 0) (length l).
Proof. rewrite <- Rsum_firstn by lia. rewrite firstn_all. reflexivity. Qed.

Lemma Rsum_map_big_sum (f : R -> R) (l : list R) :
  Rsum (map f l) = big_sum (fun i => f (nth i l 0)) (length l).
Proof.
  rewrite Rsum_big_sum, length_map. apply big_sum_ext. intros i Hi.
  rewrite (nth_indep _ 0 (f 0)) by (rewrite length_map; lia). apply map_nth.
Qed.

Lemma big_sum_nonneg (f : nat -> R) (n : nat) :
  (forall i, (i < n)%nat -> 0 <= f i) -> 0 <= big_sum f n.
Proof.
  induction n as [|n IH]; intros H; cbn; [lra|].
  assert (0 <= big_sum f n) by (apply IH; intros; apply H; lia).
  assert (0 <= f n) by (apply H; lia). lra.
Qed.

Lemma np_mean_nonempty (l : list R) :
  l <> [] -> np_mean l = Finite (Rsum l / INR (length l)).
Proof.
  intros Hl. unfold np_mean, np_div.
  rewrite (proj2 (Reqb_false_iff _ _)); [reflexivity|].
  apply not_0_INR. destruct l; cbn; congruence.
Qed.

Lemma np_mean_nil : np_mean [] = NotFinite.
Proof. unfold np_mean, np_div. cbn. rewrite (proj2 (Reqb_true_iff _ _)); reflexivity. Qed.

Lemma np_diff_length (l : list R) : length (np_diff l) = (length l - 1)%nat.
Proof.
  induction l as [|x [|y l] IH]; cbn in *; try reflexivity. rewrite IH. lia.
Qed.

Lemma np_diff_nth (l : list R) (i : nat) :
  (i + 1 < length l)%nat -> nth i (np_diff l) 0 = successive_difference l i.
Proof.
  unfold successive_difference. revert i.
  induction l as [|x [|y l] IH]; intros i Hi; cbn in Hi; try lia.
  destruct i as [|i]; [reflexivity|].
  change (nth i (np_diff (y :: l)) 0 = nth (i + 1) (y :: l) 0 - nth i (y :: l) 0).
  apply IH. cbn. lia.
Qed.

Lemma filter_length_firstn (f : R -> bool) (d : list R) (n : nat) :
  (n <= length d)%nat ->
  length (filter f (firstn n d)) =
  (fix cnt (k : nat) : nat :=
     match k with
     | O => O
     | S k' => (cnt k' + if f (nth k' d 0%R) then 1 else 0)%nat
     end) n.
Proof.
  induction n as [|n IH]; intros Hn; [reflexivity|].
  rewrite (firstn_snoc d 0) by lia. rewrite filter_app, length_app, IH by lia.
  cbn. destruct (f (nth n d 0)); reflexivity.
Qed.

Lemma count_nn50_diff (l : list R) (n : nat) :
  (n <= length l - 1)%nat ->
  length (filter (fun d => Rltb 50 (Rabs d)) (firstn n (np_diff l))) = count_nn50 l n.
Proof.
  intros Hn. rewrite filter_length_firstn by (rewrite np_diff_length; lia).
  induction n as [|n IH]; [reflexivity|].
  cbn [count_nn50]. rewrite IH by lia. rewrite np_diff_nth by lia. reflexivity.
Qed.

(** ** C2: the HRV metrics *)

Lemma np_std_nonempty (l : list R) :
  l <> [] -> np_std l = Finite (population_std l).
Proof.
  intros Hl. unfold np_std. rewrite (np_mean_nonempty l Hl).
  rewrite np_mean_nonempty by (destruct l; cbn; congruence).
  unfold population_std, mean_of. rewrite length_map, Rsum_map_big_sum, <- Rsum_big_sum.
  do 3 f_equal. apply big_sum_ext. intros i _. ring.
Qed.

Lemma rmssd_long (l : list R) :
  (2 <= length l)%nat ->
  np_sqrt (np_mean (map (fun d => d * d) (np_diff l))) = Finite (rmssd_of l).
Proof.
  intros Hl.
  assert (Hd : np_diff l <> []).
  { intros E. apply (f_equal (@length R)) in E. rewrite np_diff_length in E. cbn in E. lia. }
  rewrite np_mean_nonempty by (destruct (np_diff l); cbn; congruence).
  rewrite length_map, Rsum_map_big_sum, np_diff_length.
  assert (Heq : big_sum (fun i => nth i (np_diff l) 0 * nth i (np_diff l) 0) (length l - 1)
                = big_sum (fun i => successive_difference l i ^ 2) (length l - 1)).
  { apply big_sum_ext. intros i Hi. rewrite np_diff_nth by lia. ring. }
  rewrite Heq. unfold np_sqrt, rmssd_of.
  rewrite (proj2 (Rltb_false_iff _ _)); [reflexivity|].
  apply Rmult_le_pos.
  - apply big_sum_nonneg. intros i _. apply pow2_ge_0.
  - left. apply Rinv_0_lt_compat, lt_0_INR. lia.
Qed.



(** The closed forms for the series of the design document's test. *)
Example hrv_of_test_series :
  let rr_ms := map (fun v => v * 1000) [0.8; 0.82; 0.78; 0.85] in
  population_std rr_ms = sqrt 668.75
  /\ rmssd_of rr_ms = sqrt 2300
  /\ pnn50_of rr_ms = 25.
Proof.
  cbv zeta. unfold population_std, rmssd_of, pnn50_of, mean_of.
  rsimpl. unfold successive_difference. rsimpl.
  rewrite !INR_IZR_INZ. cbn [Z.of_nat Pos.of_succ_nat Pos.succ].
  split; [f_equal; lra|]. split; [f_equal; lra|].
  unfold Rabs.
  repeat match goal with
         | |- context [Rcase_abs ?v] => destruct (Rcase_abs v); try lra
         end.
  rcompare. cbn [Nat.add Z.of_nat Pos.of_succ_nat]. lra.
Qed.

(** ** C5: short RR series *)

Lemma calculate_hrv_nil : calculate_hrv [] = Raise ZeroDivisionError.
Proof.
  unfold calculate_hrv, py_div. cbn [map length INR].
  rewrite (proj2 (Reqb_true_iff 0 0)) by reflexivity. reflexivity.
Qed.

Lemma calculate_hrv_singleton (v : R) :
  calculate_hrv [v] = Ok {| SDNN := Finite 0; RMSSD := NotFinite; pNN50 := Finite 0 |}.
Proof.
  unfold calculate_hrv, py_div. cbn [map length np_diff filter INR].
  rewrite (proj2 (Reqb_false_iff 1 0)) by lra. cbn [bind].
  rewrite np_mean_nil. cbn [np_sqrt].
  rewrite np_std_nonempty by discriminate.
  unfold population_std, mean_of. cbn [length big_sum nth INR].
  do 3 f_equal.
  - transitivity (sqrt 0); [f_equal; field|apply sqrt_0].
  - lra.
Qed.

(** An envelope with exactly two peaks passes the guard of
    [give_bpm_and_hrv] with a series of one interval. *)
Lemma give_bpm_and_hrv_two_pulses :
  give_bpm_and_hrv (fun _ _ => Ok []) [0; 1; 0; 1; 0] (1 / 30) =
  Ok {| BPM := Finite 900;
        HRV := {| SDNN := Finite 0; RMSSD := NotFinite; pNN50 := Finite 0 |};
        Stress_Score := None |}.
Proof.
  rewrite give_bpm_and_hrv_components, peaks_of_two_pulses. cbn [bind length Nat.leb].
  unfold interval_analyzer, rr_intervals_of. cbn [length Nat.sub seq map nth Nat.add fst snd].
  rewrite calculate_hrv_singleton. cbn [bind].
  unfold py_div. rewrite (proj2 (Reqb_false_iff (1 / 30) 0)) by lra. cbn [bind].
  unfold calculate_stress_score.
  cbn [last bind Nat.add repeat set_indices length Nat.ltb Nat.leb list_set table_get].
  rewrite np_mean_nonempty by discriminate. unfold np_div, Rsum.
  cbn [fold_left length INR Z.of_nat Pos.of_succ_nat Pos.succ Z.sub Z.add Z.opp
       Z.pos_sub Pos.pred_double].
  rewrite (proj2 (Reqb_false_iff _ _)) by lra.
  do 3 f_equal. field.
Qed.

(** C5 does not hold of the code.  [calculate_hrv] has no guard of its own:
    on the empty series the pNN50 quotient divides by zero
    (ZeroDivisionError); on a single interval the mean of the (empty) squared
    differences is not a number, hence so is RMSSD.  The second case is
    reached from an envelope with exactly two peaks. *)
Theorem calculate_hrv_short_series :
  calculate_hrv [] = Raise ZeroDivisionError
  /\ calculate_hrv [0.8] =
     Ok {| SDNN := Finite 0; RMSSD := NotFinite; pNN50 := Finite 0 |}
  /\ exists res,
       give_bpm_and_hrv (fun _ _ => Ok []) [0; 1; 0; 1; 0] (1 / 30) = Ok res
       /\ RMSSD (HRV res) = NotFinite.
Proof.
  split; [exact calculate_hrv_nil|]. split; [apply calculate_hrv_singleton|].
  eexists. split; [exact give_bpm_and_hrv_two_pulses|reflexivity].
Qed.

(** ** C3 and C10: RR intervals and BPM *)

Lemma rr_intervals_of_length (peaks : list nat) (t : R) :
  length (rr_intervals_of peaks t) = (length peaks - 1)%nat.
Proof. unfold rr_intervals_of. rewrite length_map, length_seq. reflexivity. Qed.

Lemma rr_intervals_of_nth (peaks : list nat) (t : R) (i : nat) :
  (i < length peaks - 1)%nat ->
  nth i (rr_intervals_of peaks t) 0 =
  (INR (nth (i + 1) peaks O) - INR (nth i peaks O)) * t.
Proof.
  intros Hi. unfold rr_intervals_of.
  set (f := fun i => IZR (Z.of_nat (nth (i + 1) peaks O) - Z.of_nat (nth i peaks O)) * t).
  rewrite (nth_indep _ 0 (f O)) by (rewrite length_map, length_seq; exact Hi).
  rewrite map_nth, seq_nth by exact Hi. unfold f. cbn [Nat.add].
  rewrite minus_IZR, <- !INR_IZR_INZ. reflexivity.
Qed.

Lemma rr_intervals_of_positive (peaks : list nat) (t : R) :
  strictly_increasing peaks -> 0 < t ->
  forall v, In v (rr_intervals_of peaks t) -> 0 < v.
Proof.
  intros Hinc Ht v Hv. apply (In_nth _ _ 0) in Hv. destruct Hv as (i & Hi & <-).
  rewrite rr_intervals_of_length in Hi. rewrite rr_intervals_of_nth by exact Hi.
  apply Rmult_lt_0_compat; [|exact Ht].
  assert (H : (nth i peaks O < nth (i + 1) peaks O)%nat) by (apply Hinc; lia).
  apply lt_INR in H. lra.
Qed.

Lemma Rsum_positive (l : list R) :
  l <> [] -> (forall v, In v l -> 0 < v) -> 0 < Rsum l.
Proof.
  induction l as [|x l IH]; intros Hne Hpos; [congruence|].
  rewrite Rsum_cons. assert (0 < x) by (apply Hpos; left; reflexivity).
  destruct l as [|y l].
  - unfold Rsum. cbn. lra.
  - assert (0 < Rsum (y :: l)) by (apply IH; [discriminate|intros; apply Hpos; right; auto]).
    lra.
Qed.

(** The BPM of the interval analyzer on increasing peaks. *)
Lemma interval_analyzer_bpm (peaks : list nat) (t : R) :
  (2 <= length peaks)%nat -> strictly_increasing peaks -> 0 < t ->
  0 < mean_of (rr_intervals_of peaks t)
  /\ snd (interval_analyzer peaks t) = Finite (60 / mean_of (rr_intervals_of peaks t)).
Proof.
  intros Hlen Hinc Ht. unfold interval_analyzer. cbn [snd].
  set (rr := rr_intervals_of peaks t).
  assert (Hrr : length rr = (length peaks - 1)%nat) by apply rr_intervals_of_length.
  assert (Hne : rr <> []) by (destruct rr; cbn in *; [lia|congruence]).
  assert (Hmean : 0 < mean_of rr).
  { unfold mean_of. rewrite <- Rsum_big_sum. apply Rdiv_lt_0_compat.
    - apply Rsum_positive; [exact Hne|]. apply rr_intervals_of_positive; assumption.
    - apply lt_0_INR. lia. }
  split; [exact Hmean|].
  rewrite np_mean_nonempty by exact Hne. unfold np_div.
  unfold mean_of in *. rewrite <- Rsum_big_sum in *.
  rewrite (proj2 (Reqb_false_iff _ _)) by lra. reflexivity.
Qed.


Example increasing_1_3 : strictly_increasing [1%nat; 3%nat].
Proof.
  intros i j Hij. cbn in Hij.
  destruct i as [|[|i]], j as [|[|j]]; cbn; lia.
Qed.


Lemma peak_detector_increasing (averaged : list R) (peaks : list nat) :
  peak_detector averaged = Ok peaks -> strictly_increasing peaks.
Proof.
  intros Hdet. apply peak_detector_Ok in Hdet. destruct Hdet as (lo & hi & _ & _ & ->).
  apply StronglySorted_nth, find_peaks_spec.
Qed.

(** C10. With a positive sample interval, whenever at least 2 peaks are
    detected (the non-degenerate branch of [give_bpm_and_hrv]) every RR
    interval and the BPM computed from them are strictly positive, and this
    BPM is the one reported; hence the reported BPM is 0 exactly when fewer
    than 2 peaks were detected. *)
Theorem bpm_zero_iff_degenerate (averaged : list R) (time_bw_fram : R)
    (peaks : list nat) :
  0 < time_bw_fram ->
  peak_detector averaged = Ok peaks ->
  ((2 <= length peaks)%nat ->
   (forall v, In v (rr_intervals_of peaks time_bw_fram) -> 0 < v)
   /\ exists b, snd (interval_analyzer peaks time_bw_fram) = Finite b /\ 0 < b)
  /\ forall nk_hrv res,
       give_bpm_and_hrv nk_hrv averaged time_bw_fram = Ok res ->
       ((2 <= length peaks)%nat ->
        BPM res = snd (interval_analyzer peaks time_bw_fram))
       /\ (BPM res = Finite 0 <-> (length peaks < 2)%nat).
Proof.
  intros Ht Hdet. pose proof (peak_detector_increasing _ _ Hdet) as Hinc.
  assert (Hpos : (2 <= length peaks)%nat ->
                 exists b, snd (interval_analyzer peaks time_bw_fram) = Finite b /\ 0 < b).
  { intros Hlen.
    destruct (interval_analyzer_bpm peaks time_bw_fram Hlen Hinc Ht) as [Hmean Hbpm].
    eexists. split; [exact Hbpm|]. apply Rdiv_lt_0_compat; lra. }
  split.
  - intros Hlen. split; [apply rr_intervals_of_positive; assumption|auto].
  - intros nk_hrv res. rewrite give_bpm_and_hrv_components, Hdet. cbn [bind].
    destruct (Nat.leb_spec (length peaks) 1) as [Hle|Hgt].
    + intros [= <-]. split; [lia|]. cbn [BPM degenerate_result]. split; [lia|reflexivity].
    + destruct (calculate_hrv _) as [h|e]; cbn [bind]; [|discriminate].
      destruct (py_div 1 time_bw_fram) as [rate|e]; cbn [bind]; [|discriminate].
      destruct (calculate_stress_score _ _ _) as [s|e]; cbn [bind]; [|discriminate].
      destruct Hpos as (b & Hb & Hb0); [lia|]. rewrite Hb.
      intros [= <-]. cbn [BPM]. split; [reflexivity|].
      split; [|lia]. intros [= E]. lra.
Qed.

Lemma bpm_zero_iff_degenerate_witness :
  ((2 <= length [1%nat; 3%nat])%nat ->
   (forall v, In v (rr_intervals_of [1%nat; 3%nat] (1 / 30)) -> 0 < v)
   /\ exists b, snd (interval_analyzer [1%nat; 3%nat] (1 / 30)) = Finite b /\ 0 < b)
  /\ forall nk_hrv res,
       give_bpm_and_hrv nk_hrv [0; 1; 0; 1; 0] (1 / 30) = Ok res ->
       ((2 <= length [1%nat; 3%nat])%nat ->
        BPM res = snd (interval_analyzer [1%nat; 3%nat] (1 / 30)))
       /\ (BPM res = Finite 0 <-> (length [1%nat; 3%nat] < 2)%nat).
Proof.
  apply (bpm_zero_iff_degenerate [0; 1; 0; 1; 0] (1 / 30) [1%nat; 3%nat]).
  - lra.
  - exact peaks_of_two_pulses.
Defined.

(** ** C7: the stress estimator *)

Lemma list_set_length (l : list R) (i : nat) (v : R) :
  length (list_set l i v) = length l.
Proof.
  revert i. induction l as [|x l IH]; intros [|i]; cbn; auto.
Qed.

Lemma list_set_nth_eq (l : list R) (i : nat) (v : R) :
  (i < length l)%nat -> nth i (list_set l i v) 0 = v.
Proof.
  revert i. induction l as [|x l IH]; intros [|i] Hi; cbn in *; try lia; auto.
  apply IH. lia.
Qed.

Lemma list_set_nth_neq (l : list R) (i j : nat) (v : R) :
  i <> j -> nth j (list_set l i v) 0 = nth j l 0.
Proof.
  revert i j. induction l as [|x l IH]; intros [|i] [|j] Hij; cbn; auto; try congruence.
Qed.

Lemma set_indices_spec (idx : list nat) (v : R) :
  forall arr, (forall i, In i idx -> (i < length arr)%nat) ->
    exists arr', set_indices arr idx v = Ok arr'
      /\ length arr' = length arr
      /\ (forall i, In i idx -> nth i arr' 0 = v)
      /\ (forall i, ~ In i idx -> nth i arr' 0 = nth i arr 0).
Proof.
  induction idx as [|a idx IH]; intros arr Hb; cbn [set_indices].
  - exists arr. split; [reflexivity|]. split; [reflexivity|].
    split; [contradiction|reflexivity].
  - assert (Ha : (a < length arr)%nat) by (apply Hb; left; reflexivity).
    destruct (Nat.ltb_spec a (length arr)) as [_|]; [|lia].
    destruct (IH (list_set arr a v)) as (arr' & Hset & Hlen & Hin & Hout).
    { intros i Hi. rewrite list_set_length. apply Hb. right. exact Hi. }
    exists arr'. split; [exact Hset|]. split; [rewrite Hlen; apply list_set_length|]. split.
    + intros i Hi. destruct (in_dec Nat.eq_dec i idx) as [Hi'|Hi']; [auto|].
      rewrite Hout by exact Hi'. destruct Hi as [<-|Hi]; [|contradiction].
      apply list_set_nth_eq, Ha.
    + intros i Hi. rewrite Hout by (intros H; apply Hi; right; exact H).
      apply list_set_nth_neq. intros ->. apply Hi. left. reflexivity.
Qed.

Lemma last_nth (l : list nat) (d : nat) : last l d = nth (length l - 1) l d.
Proof.
  induction l as [|x [|y l] IH]; try reflexivity.
  change (last (y :: l) d = nth (length (y :: l) - 1) (y :: l) d) in IH.
  change (last (x :: y :: l) d) with (last (y :: l) d). rewrite IH. cbn.
  rewrite Nat.sub_0_r. reflexivity.
Qed.

Lemma increasing_below_last (peaks : list nat) (p : nat) :
  strictly_increasing peaks -> In p peaks -> (p <= last peaks O)%nat.
Proof.
  intros Hinc Hp. apply (In_nth _ _ O) in Hp. destruct Hp as (i & Hi & <-).
  rewrite last_nth. destruct (Nat.eq_dec i (length peaks - 1)) as [->|Hne]; [lia|].
  apply Nat.lt_le_incl, Hinc. lia.
Qed.




(** ** C8: the envelope extractor *)

Lemma lfilter_length (b a x : list R) : forall z, length (lfilter b a x z) = length x.
Proof. induction x as [|xm x IH]; intros z; cbn; [reflexivity|]. rewrite IH. reflexivity. Qed.

Lemma odd_ext_length (x : list R) (n : nat) :
  (n < length x)%nat -> length (odd_ext x n) = (length x + 2 * n)%nat.
Proof.
  intros Hn. unfold odd_ext.
  rewrite !length_app, !length_map, !length_rev, !length_firstn, !length_skipn. lia.
Qed.

(** [filtfilt] answers only on a signal longer than its pad, with a signal
    of the same length. *)
Lemma filtfilt_Ok (b a x y : list R) :
  filtfilt b a x = Ok y ->
  (Nat.max (length a) (length b) * 3 < length x)%nat /\ length y = length x.
Proof.
  unfold filtfilt.
  destruct (Nat.leb_spec (length x) (Nat.max (length a) (length b) * 3)) as [|Hlt];
    [discriminate|].
  destruct (normalize_ba b a) as [[b' a']|e]; cbn [bind]; [|discriminate].
  destruct (lfilter_zi b' a') as [zi|e]; cbn [bind]; [|discriminate].
  intros [= <-]. split; [exact Hlt|].
  rewrite length_firstn, length_skipn, !length_rev, !lfilter_length, length_rev,
    lfilter_length, odd_ext_length by exact Hlt.
  lia.
Qed.


(** The transposed direct form of the 7-tap averaging filter computes the
    mean of the last 7 samples: its state holds the partial sums of the
    history. *)
Lemma lfilter_moving_average (x : list R) :
  forall h0 h1 h2 h3 h4 h5 h6,
    lfilter [1/7; 1/7; 1/7; 1/7; 1/7; 1/7; 1/7] [1; 0; 0; 0; 0; 0; 0] x
      [(h0 + h1 + h2 + h3 + h4 + h5) / 7; (h0 + h1 + h2 + h3 + h4) / 7;
       (h0 + h1 + h2 + h3) / 7; (h0 + h1 + h2) / 7; (h0 + h1) / 7; h0 / 7]
    = moving_average 7 [h0; h1; h2; h3; h4; h5; h6] x.
Proof.
  induction x as [|xm x IH]; intros h0 h1 h2 h3 h4 h5 h6; [reflexivity|].
  cbn [moving_average firstn]. rewrite <- IH.
  cbn [lfilter length seq map nth]. f_equal.
  - unfold Rsum. cbn [fold_left]. rewrite INR_IZR_INZ. cbn [Z.of_nat Pos.of_succ_nat Pos.succ]. lra.
  - f_equal. repeat (f_equal; try lra).
Qed.

Lemma lfilter_moving_average_start (x : list R) (x0 : R) :
  lfilter [1/7; 1/7; 1/7; 1/7; 1/7; 1/7; 1/7] [1; 0; 0; 0; 0; 0; 0] x
    (map (fun z => z * x0) [6/7; 5/7; 4/7; 3/7; 2/7; 1/7])
  = moving_average 7 (repeat x0 7) x.
Proof.
  cbn [repeat map]. rewrite <- lfilter_moving_average.
  f_equal. repeat (f_equal; try lra).
Qed.

Lemma normalize_ba_average :
  normalize_ba (map (fun v => v / INR 7) (repeat 1 7)) (repeat 1 1%nat)
  = Ok ([1/7; 1/7; 1/7; 1/7; 1/7; 1/7; 1/7], [1; 0; 0; 0; 0; 0; 0]).
Proof.
  unfold normalize_ba, pad_to. cbn [repeat map length Nat.max Nat.sub app].
  rewrite (proj2 (Reqb_false_iff 1 0)) by lra.
  rewrite INR_IZR_INZ. cbn [Z.of_nat Pos.of_succ_nat Pos.succ].
  do 2 f_equal; repeat (f_equal; try lra).
Qed.

Lemma lfilter_zi_average :
  lfilter_zi [1/7; 1/7; 1/7; 1/7; 1/7; 1/7; 1/7] [1; 0; 0; 0; 0; 0; 0]
  = Ok [6/7; 5/7; 4/7; 3/7; 2/7; 1/7].
Proof.
  unfold lfilter_zi, Rsum.
  cbn [length Nat.ltb Nat.leb tl Rmap2 nth fold_left Nat.sub seq map firstn].
  rewrite (proj2 (Reqb_false_iff _ 0)) by lra.
  f_equal. repeat (f_equal; try lra).
Qed.

(** [filtfilt] with the 7-tap averaging coefficients is the zero-phase
    moving average of window 7, on every signal of more than 21 samples. *)
Lemma filtfilt_average (x : list R) :
  (21 < length x)%nat ->
  filtfilt (map (fun v => v / INR 7) (repeat 1 7)) (repeat 1 1%nat) x
  = Ok (zero_phase_moving_average 7 x).
Proof.
  intros Hx. unfold filtfilt. rewrite normalize_ba_average.
  cbn [repeat map length Nat.max Nat.mul Nat.add].
  destruct (Nat.leb_spec (length x) 21) as [|_]; [lia|].
  cbn [bind]. rewrite lfilter_zi_average. cbn [bind].
  rewrite !lfilter_moving_average_start. reflexivity.
Qed.

Lemma filtfilt_short (b a x : list R) :
  (length x <= Nat.max (length a) (length b) * 3)%nat ->
  filtfilt b a x = Raise ValueError.
Proof.
  intros Hx. unfold filtfilt.
  destruct (Nat.leb_spec (length x) (Nat.max (length a) (length b) * 3)); [reflexivity|lia].
Qed.


Lemma convolve_nonempty (x h : list R) :
  x <> [] -> h <> [] -> convolve x h = Ok (conv_full x h).
Proof. destruct x, h; cbn; congruence. Qed.

(** Line 51 is dead: with it or without it the extractor does the same. *)
Lemma envelope_extractor_no_convolve (filtered_signal : list R) :
  envelope_extractor filtered_signal 7 =
  filtfilt (map (fun v => v / INR 7) (repeat 1 7)) (repeat 1 1%nat)
           (map (fun v => v * v) filtered_signal).
Proof.
  unfold envelope_extractor. destruct filtered_signal as [|v l].
  - cbn [map convolve bind]. symmetry. apply filtfilt_short. cbn. lia.
  - rewrite convolve_nonempty by (cbn; discriminate). cbn [bind].
    destruct (filtfilt _ _ _); reflexivity.
Qed.

Lemma process_signal_envelope butter_design (y : list R) (order : nat) (high low fs : R)
    (n : nat) :
  process_signal butter_design y order high low fs n =
  (filtered_signal <- filter_all butter_design y fs order high low ;;
   envelope_extractor filtered_signal n).
Proof. reflexivity. Qed.





(** ** C6: failures of the request handler *)

Lemma py_int_IZR (z : Z) : py_int (IZR z) = z.
Proof.
  unfold py_int. destruct (Rle_dec 0 (IZR z)) as [H|H].
  - symmetry. apply Int_part_spec. lra.
  - rewrite <- opp_IZR. rewrite <- (Int_part_spec (IZR (- z)) (- z)) by lra. lia.
Qed.

Lemma read_frames_length (fs : list frame) :
  forall R_ G_ B_ R' G' B',
    read_frames fs R_ G_ B_ = Ok (R', G', B') ->
    length R' = (length R_ + length fs)%nat.
Proof.
  induction fs as [|f fs IH]; intros R_ G_ B_ R' G' B'; cbn [read_frames].
  - intros [= <- _ _]. cbn. lia.
  - destruct (frame_sums f) as [[[sumr sumg] sumb] n].
    destruct (py_div sumr (INR n)) as [r|e]; cbn [bind]; [|discriminate].
    destruct (py_div sumg (INR n)) as [g|e]; cbn [bind]; [|discriminate].
    destruct (py_div sumb (INR n)) as [b|e]; cbn [bind]; [|discriminate].
    intros H. apply IH in H. rewrite H, length_app. cbn. lia.
Qed.

(** [l[100:-100]] drops 100 samples at each end. *)
Lemma trim_length {A : Type} (l : list A) :
  length (py_slice l 100 (-100)) = (length l - 200)%nat.
Proof.
  unfold py_slice, slice_index. rewrite length_firstn, length_skipn.
  cbn [Z.ltb Z.compare]. lia.
Qed.

(** The band-pass filter keeps the length of the signal. *)
Lemma filter_all_length butter_design (data : list R) (fs : R) (order : nat)
    (cutoff_high cutoff_low : R) (out : list R) :
  filter_all butter_design data fs order cutoff_high cutoff_low = Ok out ->
  length out = length data.
Proof.
  unfold filter_all.
  destruct (butter_highpass _ _ _ _) as [[b a]|e]; cbn [bind]; [|discriminate].
  destruct (filtfilt b a data) as [hp|e] eqn:E1; cbn [bind]; [|discriminate].
  destruct (butter_lowpass _ _ _ _) as [[d c]|e]; cbn [bind]; [|discriminate].
  destruct (filtfilt d c hp) as [bp|e] eqn:E2; cbn [bind]; [|discriminate].
  intros [= <-]. apply filtfilt_Ok in E1, E2. destruct E1 as [_ H1], E2 as [_ H2].
  congruence.
Qed.

(** A signal of at most 21 samples does not pass [process_signal]: whatever
    the band-pass stage does, the zero-phase average refuses it. *)
Lemma process_signal_short butter_design (y : list R) (order : nat)
    (cutoff_high cutoff_low fs : R) :
  (length y <= 21)%nat ->
  exists e, process_signal butter_design y order cutoff_high cutoff_low fs 7 = Raise e.
Proof.
  intros Hlen. rewrite process_signal_envelope.
  destruct (filter_all _ _ _ _ _ _) as [f|e] eqn:E; cbn [bind]; [|eauto].
  apply filter_all_length in E. rewrite envelope_extractor_no_convolve.
  rewrite filtfilt_short by (rewrite length_map; cbn; lia). eauto.
Qed.

Lemma get_beats_per_min_unopened butter_design nk_hrv VideoCapture (query : string) :
  isOpened (VideoCapture query) = false ->
  get_beats_per_min butter_design nk_hrv VideoCapture query =
  Ok (ErrorBody "Video file could not be opened. Please check the path.").
Proof. intros H. unfold get_beats_per_min. rewrite H. reflexivity. Qed.

Lemma get_beats_per_min_no_frames butter_design nk_hrv VideoCapture (query : string) :
  isOpened (VideoCapture query) = true ->
  py_int (CAP_PROP_FRAME_COUNT (VideoCapture query)) = 0%Z ->
  get_beats_per_min butter_design nk_hrv VideoCapture query =
  Ok (ErrorBody "Video contains no frames.").
Proof. intros H H0. unfold get_beats_per_min. rewrite H, H0. reflexivity. Qed.

Lemma get_beats_per_min_short butter_design nk_hrv VideoCapture (query : string) :
  isOpened (VideoCapture query) = true ->
  py_int (CAP_PROP_FRAME_COUNT (VideoCapture query)) <> 0%Z ->
  (length (frames (VideoCapture query)) <= 221)%nat ->
  exists e, get_beats_per_min butter_design nk_hrv VideoCapture query = Raise e.
Proof.
  intros Hopen Hcount Hshort. unfold get_beats_per_min. rewrite Hopen. cbn [negb].
  destruct (Z.eqb_spec (py_int (CAP_PROP_FRAME_COUNT (VideoCapture query))) 0) as [|_];
    [contradiction|].
  destruct (py_div 1 (CAP_PROP_FPS (VideoCapture query))) as [t|e]; cbn [bind]; [|eauto].
  destruct (read_frames (frames (VideoCapture query)) [] [] []) as [[[R_ G_] B_]|e] eqn:E;
    cbn [bind]; [|eauto].
  apply read_frames_length in E. cbn [length Nat.add] in E.
  destruct (process_signal_short butter_design (py_slice R_ 100 (-100)) 5 10 100
              (IZR (8 * py_int (CAP_PROP_FPS (VideoCapture query) + 1)))) as [e He].
  { rewrite trim_length. lia. }
  rewrite He. cbn [bind]. eauto.
Qed.

Lemma frame_sums_black_pixel :
  frame_sums [[(0, 0, 0)%Z]] = (0 + IZR 0, 0 + IZR 0, 0 + IZR 0, 1%nat).
Proof. reflexivity. Qed.

Lemma read_frames_black (n : nat) :
  forall R_ G_ B_, exists R' G' B',
    read_frames (repeat [[(0, 0, 0)%Z]] n) R_ G_ B_ = Ok (R', G', B')
    /\ length R' = (length R_ + n)%nat.
Proof.
  induction n as [|n IH]; intros R_ G_ B_; cbn [repeat read_frames].
  - exists R_, G_, B_. split; [reflexivity|lia].
  - rewrite frame_sums_black_pixel. unfold py_div. cbn [INR].
    rewrite (proj2 (Reqb_false_iff 1 0)) by lra. cbn [bind].
    destruct (IH (R_ ++ [(0 + 0) / 1]) (G_ ++ [(0 + 0) / 1]) (B_ ++ [(0 + 0) / 1]))
      as (R' & G' & B' & E & Hlen).
    exists R', G', B'. split; [exact E|]. rewrite Hlen, length_app. cbn. lia.
Qed.

(** C6, as stated, fails: a clip that opens and reports 10 frames leaves an
    empty trimmed signal, and the ValueError of the zero-phase filter leaves
    the handler. *)
Lemma short_clip_raises :
  get_beats_per_min sample_design (fun _ _ => Ok []) (fun _ => short_clip) "clip.mp4"
  = Raise ValueError.
Proof.
  unfold get_beats_per_min, short_clip.
  cbn [isOpened negb CAP_PROP_FPS CAP_PROP_FRAME_COUNT frames].
  rewrite py_int_IZR. cbn [Z.eqb].
  unfold py_div at 1. rcompare. cbn [bind].
  destruct (read_frames_black 10 [] [] []) as (R' & G' & B' & E & Hlen).
  rewrite E. cbn [bind].
  assert (Htrim : py_slice R' 100 (-100) = []).
  { apply length_zero_iff_nil. rewrite trim_length, Hlen. reflexivity. }
  rewrite Htrim. replace (30 + 1) with 31 by lra. rewrite py_int_IZR.
  unfold process_signal, filter_all, butter_highpass, butter, py_div.
  cbn [Z.mul Pos.mul Pos.add Pos.succ].
  rcompare. cbn [bind]. rcompare. cbn [orb bind sample_design].
  rewrite filtfilt_short by (cbn; lia). reflexivity.
Qed.

(** C6, amended. A source that cannot be opened and a reported frame count of
    zero are answered with an error body.  A trimmed colour signal too short
    for the zero-phase filters (at most 21 samples, from at most 221 decoded
    frames) is not caught: an exception leaves the handler. *)
Theorem get_beats_per_min_failures butter_design nk_hrv VideoCapture (query : string) :
  (isOpened (VideoCapture query) = false ->
   get_beats_per_min butter_design nk_hrv VideoCapture query =
   Ok (ErrorBody "Video file could not be opened. Please check the path."))
  /\ (isOpened (VideoCapture query) = true ->
      py_int (CAP_PROP_FRAME_COUNT (VideoCapture query)) = 0%Z ->
      get_beats_per_min butter_design nk_hrv VideoCapture query =
      Ok (ErrorBody "Video contains no frames."))
  /\ (isOpened (VideoCapture query) = true ->
      py_int (CAP_PROP_FRAME_COUNT (VideoCapture query)) <> 0%Z ->
      (length (frames (VideoCapture query)) <= 221)%nat ->
      exists e, get_beats_per_min butter_design nk_hrv VideoCapture query = Raise e).
Proof.
  split; [apply get_beats_per_min_unopened|].
  split; [apply get_beats_per_min_no_frames|].
  apply get_beats_per_min_short.
Qed.

Lemma get_beats_per_min_failures_witness :
  exists e,
    get_beats_per_min sample_design (fun _ _ => Ok []) (fun _ => short_clip) "clip.mp4"
    = Raise e.
Proof.
  apply (get_beats_per_min_failures sample_design (fun _ _ => Ok [])
           (fun _ => short_clip) "clip.mp4").
  - reflexivity.
  - cbn [short_clip CAP_PROP_FRAME_COUNT]. rewrite py_int_IZR. discriminate.
  - cbn. lia.
Defined.

(** * Further properties of the code *)

(** ** Spacing and number of the detected peaks *)

(** Two plateaus are separated by at least one lower sample. *)
Lemma plateau_separated (x : list R) (l1 r1 l2 r2 : nat) :
  plateau x l1 r1 -> plateau x l2 r2 -> (l1 < l2)%nat -> (r1 + 2 <= l2)%nat.
Proof.
  intros (A1 & B1 & C1 & E1 & Lo1 & Hi1) (A2 & B2 & C2 & E2 & Lo2 & Hi2) Hl.
  destruct (le_lt_dec l2 (r1 + 1)) as [Hle|]; [exfalso|lia].
  destruct (Nat.eq_dec l2 (r1 + 1)) as [->|Hne].
  - replace (r1 + 1 - 1)%nat with r1 in Lo2 by lia.
    rewrite (E1 r1) in Lo2 by lia. lra.
  - rewrite (E1 (l2 - 1)%nat), (E1 l2) in Lo2 by lia. lra.
Qed.

Lemma plateau_unique (x : list R) (l r1 r2 : nat) :
  plateau x l r1 -> plateau x l r2 -> r1 = r2.
Proof.
  intros H1 H2. apply plateau_right_edge in H1, H2. rewrite H1 in H2. lia.
Qed.

(** Midpoints of different plateaus, the lower one first. *)
Lemma midpoints_spaced (x : list R) (l1 r1 l2 r2 : nat) :
  plateau x l1 r1 -> plateau x l2 r2 ->
  ((l1 + r1) / 2 < (l2 + r2) / 2)%nat ->
  ((l1 + r1) / 2 + 2 <= (l2 + r2) / 2)%nat.
Proof.
  intros H1 H2 Hlt.
  destruct (plateau_midpoint _ _ _ H1) as [M1 _].
  destruct (plateau_midpoint _ _ _ H2) as [M2 _].
  destruct (Nat.lt_trichotomy l1 l2) as [Hl|[->|Hl]].
  - pose proof (plateau_separated _ _ _ _ _ H1 H2 Hl). lia.
  - rewrite (plateau_unique _ _ _ _ H1 H2) in Hlt. lia.
  - pose proof (plateau_separated _ _ _ _ _ H2 H1 Hl). lia.
Qed.

Lemma peak_detector_members (averaged : list R) (peaks : list nat) :
  peak_detector averaged = Ok peaks ->
  forall p, In p peaks -> exists l r, plateau averaged l r /\ p = ((l + r) / 2)%nat.
Proof.
  intros Hdet p Hp. apply peak_detector_Ok in Hdet. destruct Hdet as (lo & hi & _ & _ & ->).
  apply find_peaks_spec in Hp. tauto.
Qed.

Lemma peak_detector_spaced (averaged : list R) (peaks : list nat) :
  peak_detector averaged = Ok peaks ->
  forall i j, (i < j < length peaks)%nat -> (nth i peaks O + 2 <= nth j peaks O)%nat.
Proof.
  intros Hdet i j Hij.
  pose proof (peak_detector_increasing _ _ Hdet i j Hij) as Hlt.
  destruct (peak_detector_members _ _ Hdet (nth i peaks O)) as (l1 & r1 & P1 & E1);
    [apply nth_In; lia|].
  destruct (peak_detector_members _ _ Hdet (nth j peaks O)) as (l2 & r2 & P2 & E2);
    [apply nth_In; lia|].
  rewrite E1, E2 in Hlt |- *. apply (midpoints_spaced averaged); assumption.
Qed.

Lemma spaced_from_first (peaks : list nat) :
  (forall i j, (i < j < length peaks)%nat -> (nth i peaks O + 2 <= nth j peaks O)%nat) ->
  forall i, (i < length peaks)%nat -> (nth 0 peaks O + 2 * i <= nth i peaks O)%nat.
Proof.
  intros Hsp i Hi. destruct i as [|i]; [lia|].
  induction i as [|i IH].
  - specialize (Hsp 0%nat 1%nat). lia.
  - specialize (Hsp (S i) (S (S i))). specialize (IH ltac:(lia)). lia.
Qed.



(** Consecutive detected peaks are at least 2 samples apart. *)
Theorem peaks_two_apart (averaged : list R) (peaks : list nat) :
  peak_detector averaged = Ok peaks ->
  forall i, (i + 1 < length peaks)%nat -> (nth i peaks O + 2 <= nth (i + 1) peaks O)%nat.
Proof.
  intros Hdet i Hi. apply (peak_detector_spaced _ _ Hdet). lia.
Qed.

Lemma peaks_two_apart_witness :
  (nth 0 [1%nat; 3%nat] O + 2 <= nth (0 + 1) [1%nat; 3%nat] O)%nat.
Proof.
  apply (peaks_two_apart [0; 1; 0; 1; 0] [1%nat; 3%nat]).
  - exact peaks_of_two_pulses.
  - cbn. lia.
Defined.



Lemma monotone_no_plateau (x : list R) (l r : nat) :
  non_decreasing x \/ non_increasing x -> ~ plateau x l r.
Proof.
  intros Hmono (Hl & Hlr & Hr & Heq & Lo & Hi).
  destruct Hmono as [Hup|Hdown].
  - specialize (Hup r Hr). rewrite (Heq r) in Hup by lia. lra.
  - specialize (Hdown (l - 1)%nat). replace (l - 1 + 1)%nat with l in Hdown by lia.
    specialize (Hdown ltac:(lia)). lra.
Qed.

(** An envelope that never falls, or never rises (a constant one, a ramp),
    has no peak: the result is the degenerate one. *)
Theorem monotone_envelope_degenerate nk_hrv (averaged : list R) (time_bw_fram : R) :
  averaged <> [] ->
  non_decreasing averaged \/ non_increasing averaged ->
  peak_detector averaged = Ok []
  /\ give_bpm_and_hrv nk_hrv averaged time_bw_fram = Ok degenerate_result.
Proof.
  intros Hne Hmono. destruct (peak_detector_nonempty _ Hne) as [peaks Hdet].
  assert (peaks = []) as ->.
  { destruct peaks as [|p rest]; [reflexivity|exfalso].
    destruct (peak_detector_members _ _ Hdet p) as (l & r & Hpl & _); [left; reflexivity|].
    exact (monotone_no_plateau _ _ _ Hmono Hpl). }
  split; [exact Hdet|]. rewrite give_bpm_and_hrv_components, Hdet. reflexivity.
Qed.

Lemma monotone_envelope_degenerate_witness :
  peak_detector [2; 2; 2] = Ok []
  /\ give_bpm_and_hrv (fun _ _ => Raise ValueError) [2; 2; 2] (1 / 30) = Ok degenerate_result.
Proof.
  apply (monotone_envelope_degenerate (fun _ _ => Raise ValueError) [2; 2; 2] (1 / 30)).
  - discriminate.
  - left. intros i Hi. cbn in Hi.
    destruct i as [|[|i]]; cbn; try lra. lia.
Defined.

(** ** The BPM in closed form *)

(** The RR intervals telescope: their sum is the time from the first peak to
    the last. *)
Lemma rr_intervals_partial_sum (peaks : list nat) (t : R) (m : nat) :
  (m < length peaks)%nat ->
  big_sum (fun i => nth i (rr_intervals_of peaks t) 0) m
  = (INR (nth m peaks O) - INR (nth 0 peaks O)) * t.
Proof.
  induction m as [|m IH]; intros Hm; cbn [big_sum]; [lra|].
  rewrite IH by lia. rewrite rr_intervals_of_nth by lia.
  replace (m + 1)%nat with (S m) by lia. lra.
Qed.

Lemma rr_intervals_sum (peaks : list nat) (t : R) :
  peaks <> [] ->
  Rsum (rr_intervals_of peaks t) = (INR (last peaks O) - INR (nth 0 peaks O)) * t.
Proof.
  intros Hne. assert (0 < length peaks)%nat by (destruct peaks; cbn; [congruence|lia]).
  rewrite Rsum_big_sum, rr_intervals_of_length, last_nth.
  apply rr_intervals_partial_sum. lia.
Qed.

Lemma interval_analyzer_closed_form (peaks : list nat) (t : R) :
  (2 <= length peaks)%nat -> strictly_increasing peaks -> t <> 0 ->
  snd (interval_analyzer peaks t)
  = Finite (60 * INR (length peaks - 1)
            / ((INR (last peaks O) - INR (nth 0 peaks O)) * t)).
Proof.
  intros Hlen Hinc Ht. unfold interval_analyzer. cbn [snd].
  assert (Hne : peaks <> []) by (destruct peaks; cbn in *; [lia|congruence]).
  assert (Hrr : rr_intervals_of peaks t <> []).
  { intros E. apply (f_equal (@length R)) in E.
    rewrite rr_intervals_of_length in E. cbn in E. lia. }
  rewrite np_mean_nonempty by exact Hrr.
  rewrite rr_intervals_sum, rr_intervals_of_length by exact Hne.
  assert (Hspan : 0 < INR (last peaks O) - INR (nth 0 peaks O)).
  { rewrite last_nth. assert (nth 0 peaks O < nth (length peaks - 1) peaks O)%nat
      by (apply Hinc; lia).
    apply lt_INR in H. lra. }
  assert (Hk : 0 < INR (length peaks - 1)) by (apply lt_0_INR; lia).
  unfold np_div. rewrite (proj2 (Reqb_false_iff _ _)).
  - f_equal. field. repeat split; lra.
  - intros E. apply Rmult_integral in E. destruct E as [E|E].
    + apply Rmult_integral in E. destruct E; lra.
    + apply Rinv_neq_0_compat in E; [exact E|lra].
Qed.

(** With at least 2 strictly increasing peaks, the BPM depends only on the
    first peak, the last peak and the number of peaks:
    BPM = 60 (k - 1) / ((last - first) * interval). *)
Theorem bpm_first_last (peaks : list nat) (time_bw_fram : R) :
  (2 <= length peaks)%nat -> strictly_increasing peaks -> time_bw_fram <> 0 ->
  Rsum (fst (interval_analyzer peaks time_bw_fram))
  = (INR (last peaks O) - INR (nth 0 peaks O)) * time_bw_fram
  /\ snd (interval_analyzer peaks time_bw_fram)
     = Finite (60 * INR (length peaks - 1)
               / ((INR (last peaks O) - INR (nth 0 peaks O)) * time_bw_fram)).
Proof.
  intros Hlen Hinc Ht. split.
  - apply rr_intervals_sum. destruct peaks; cbn in *; [lia|congruence].
  - apply interval_analyzer_closed_form; assumption.
Qed.

Lemma bpm_first_last_witness :
  Rsum (fst (interval_analyzer [1%nat; 3%nat] (1 / 30)))
  = (INR (last [1%nat; 3%nat] O) - INR (nth 0 [1%nat; 3%nat] O)) * (1 / 30)
  /\ snd (interval_analyzer [1%nat; 3%nat] (1 / 30))
     = Finite (60 * INR (length [1%nat; 3%nat] - 1)
               / ((INR (last [1%nat; 3%nat] O) - INR (nth 0 [1%nat; 3%nat] O)) * (1 / 30))).
Proof.
  apply (bpm_first_last [1%nat; 3%nat] (1 / 30)).
  - cbn. lia.
  - exact increasing_1_3.
  - lra.
Defined.

(** The reported BPM never exceeds 30 / interval (half the frame rate, per
    second, times 60): detected peaks are at least 2 samples apart. *)
Theorem bpm_at_most_half_rate nk_hrv (averaged : list R) (time_bw_fram : R)
    (res : BpmHrv) :
  0 < time_bw_fram ->
  give_bpm_and_hrv nk_hrv averaged time_bw_fram = Ok res ->
  exists b, BPM res = Finite b /\ 0 <= b <= 30 / time_bw_fram.
Proof.
  intros Ht. rewrite give_bpm_and_hrv_components.
  destruct (peak_detector averaged) as [peaks|e] eqn:Hdet; cbn [bind]; [|discriminate].
  assert (Hbound : 0 <= 30 / time_bw_fram).
  { apply Rlt_le, Rdiv_lt_0_compat; lra. }
  destruct (Nat.leb_spec (length peaks) 1) as [Hle|Hgt].
  - intros [= <-]. exists 0. split; [reflexivity|lra].
  - pose proof (peak_detector_increasing _ _ Hdet) as Hinc.
    rewrite (interval_analyzer_closed_form peaks time_bw_fram) by (lia || assumption || lra).
    destruct (calculate_hrv _) as [h|e]; cbn [bind]; [|discriminate].
    destruct (py_div 1 time_bw_fram) as [rate|e]; cbn [bind]; [|discriminate].
    destruct (calculate_stress_score _ _ _) as [s|e]; cbn [bind]; [|discriminate].
    intros [= <-]. eexists. split; [reflexivity|].
    pose proof (spaced_from_first peaks (peak_detector_spaced _ _ Hdet)
                  (length peaks - 1)%nat ltac:(lia)) as Hspan.
    rewrite <- last_nth in Hspan. apply le_INR in Hspan.
    rewrite plus_INR, mult_INR in Hspan. cbn [INR] in Hspan.
    set (k := INR (length peaks - 1)) in *.
    set (span := INR (last peaks O) - INR (nth 0 peaks O)).
    assert (Hk : 1 <= k) by (unfold k; change 1 with (INR 1); apply le_INR; lia).
    assert (Hs : 2 * k <= span) by (unfold span; lra).
    split.
    + apply Rlt_le, Rdiv_lt_0_compat; [lra|]. apply Rmult_lt_0_compat; lra.
    + apply (Rmult_le_reg_r (span * time_bw_fram)); [apply Rmult_lt_0_compat; lra|].
      replace (60 * k / (span * time_bw_fram) * (span * time_bw_fram)) with (60 * k)
        by (field; split; lra).
      replace (30 / time_bw_fram * (span * time_bw_fram)) with (30 * span)
        by (field; lra).
      lra.
Qed.

Lemma bpm_at_most_half_rate_witness :
  exists b,
    BPM {| BPM := Finite 900;
           HRV := {| SDNN := Finite 0; RMSSD := NotFinite; pNN50 := Finite 0 |};
           Stress_Score := None |} = Finite b
    /\ 0 <= b <= 30 / (1 / 30).
Proof.
  apply (bpm_at_most_half_rate (fun _ _ => Ok []) [0; 1; 0; 1; 0] (1 / 30)).
  - lra.
  - exact give_bpm_and_hrv_two_pulses.
Defined.

(** ** Ranges of the HRV metrics *)

Lemma calculate_hrv_long (rr_intervals : list R) :
  (2 <= length rr_intervals)%nat ->
  calculate_hrv rr_intervals =
  Ok {| SDNN := Finite (population_std (map (fun v => v * 1000) rr_intervals));
        RMSSD := Finite (rmssd_of (map (fun v => v * 1000) rr_intervals));
        pNN50 := Finite (pnn50_of (map (fun v => v * 1000) rr_intervals)) |}.
Proof.
  intros Hlen. set (rr_ms := map (fun v => v * 1000) rr_intervals).
  unfold calculate_hrv. fold rr_ms.
  assert (Hms : length rr_ms = length rr_intervals) by apply length_map.
  assert (Hne : rr_ms <> []) by (destruct rr_ms; cbn in *; [lia|congruence]).
  assert (Hn0 : INR (length rr_ms) <> 0) by (apply not_0_INR; lia).
  unfold py_div. rewrite (proj2 (Reqb_false_iff _ _)) by exact Hn0. cbn [bind].
  rewrite np_std_nonempty by exact Hne. rewrite rmssd_long by lia.
  do 3 f_equal. unfold pnn50_of.
  rewrite <- (count_nn50_diff rr_ms (length rr_ms - 1)) by lia.
  rewrite <- np_diff_length, firstn_all. field. exact Hn0.
Qed.

Lemma count_nn50_le (x : list R) (n : nat) : (count_nn50 x n <= n)%nat.
Proof.
  induction n as [|n IH]; cbn [count_nn50]; [lia|].
  destruct (Rltb 50 (Rabs (successive_difference x n))); lia.
Qed.

Lemma count_nn50_zero (x : list R) (n : nat) :
  count_nn50 x n = O <->
  forall i, (i < n)%nat -> Rabs (successive_difference x i) <= 50.
Proof.
  induction n as [|n IH]; cbn [count_nn50].
  - split; [intros _ i Hi; lia|reflexivity].
  - destruct (Rltb 50 (Rabs (successive_difference x n))) eqn:E.
    + apply Rltb_true_iff in E. split; [lia|].
      intros H. specialize (H n ltac:(lia)). lra.
    + apply Rltb_false_iff in E. rewrite Nat.add_0_r, IH. split.
      * intros H i Hi. destruct (Nat.eq_dec i n) as [->|]; [exact E|]. apply H. lia.
      * intros H i Hi. apply H. lia.
Qed.

(** On at least 2 RR intervals all three metrics are finite and
    non-negative, and pNN50 stays strictly below 100: the count of
    differences (at most n - 1) is divided by the number n of intervals. *)
Theorem hrv_metrics_ranges (rr_intervals : list R) :
  (2 <= length rr_intervals)%nat ->
  exists sdnn rmssd pnn50,
    calculate_hrv rr_intervals =
    Ok {| SDNN := Finite sdnn; RMSSD := Finite rmssd; pNN50 := Finite pnn50 |}
    /\ 0 <= sdnn /\ 0 <= rmssd /\ 0 <= pnn50 < 100.
Proof.
  intros Hlen. rewrite calculate_hrv_long by exact Hlen.
  do 3 eexists. split; [reflexivity|].
  split; [apply sqrt_pos|]. split; [apply sqrt_pos|].
  unfold pnn50_of. rewrite length_map.
  set (c := count_nn50 _ _).
  assert (Hc : (c <= length rr_intervals - 1)%nat) by apply count_nn50_le.
  assert (Hn : 0 < INR (length rr_intervals)) by (apply lt_0_INR; lia).
  assert (Hc0 : 0 <= INR c) by apply pos_INR.
  assert (Hc1 : INR c < INR (length rr_intervals)) by (apply lt_INR; lia).
  split.
  - apply Rmult_le_pos; [lra|]. apply Rlt_le, Rinv_0_lt_compat, Hn.
  - apply (Rmult_lt_reg_r (INR (length rr_intervals))); [exact Hn|].
    replace (100 * INR c / INR (length rr_intervals) * INR (length rr_intervals))
      with (100 * INR c) by (field; lra).
    lra.
Qed.

Lemma hrv_metrics_ranges_witness :
  exists sdnn rmssd pnn50,
    calculate_hrv [0.8; 0.82; 0.78; 0.85] =
    Ok {| SDNN := Finite sdnn; RMSSD := Finite rmssd; pNN50 := Finite pnn50 |}
    /\ 0 <= sdnn /\ 0 <= rmssd /\ 0 <= pnn50 < 100.
Proof.
  apply (hrv_metrics_ranges [0.8; 0.82; 0.78; 0.85]). cbn. lia.
Defined.



Lemma big_sum_zero (f : nat -> R) (n : nat) :
  (forall i, (i < n)%nat -> f i = 0) -> big_sum f n = 0.
Proof.
  induction n as [|n IH]; intros H; cbn [big_sum]; [reflexivity|].
  rewrite IH, H by (intros; auto with arith). lra.
Qed.

Lemma big_sum_const (c : R) (n : nat) : big_sum (fun _ => c) n = INR n * c.
Proof.
  induction n as [|n IH]; [cbn; lra|].
  cbn [big_sum]. rewrite IH, S_INR. lra.
Qed.

(** A perfectly steady rhythm (all RR intervals equal) has SDNN, RMSSD and
    pNN50 all 0. *)
Theorem steady_rhythm_zero_hrv (v : R) (n : nat) :
  (2 <= n)%nat ->
  calculate_hrv (repeat v n) =
  Ok {| SDNN := Finite 0; RMSSD := Finite 0; pNN50 := Finite 0 |}.
Proof.
  intros Hn. rewrite calculate_hrv_long by (rewrite repeat_length; exact Hn).
  assert (Hms : map (fun v => v * 1000) (repeat v n) = repeat (v * 1000) n)
    by exact (map_repeat v n (fun v => v * 1000)).
  rewrite Hms. set (c := v * 1000).
  assert (Hnth : forall i, (i < n)%nat -> nth i (repeat c n) 0 = c)
    by (intros; apply nth_repeat_lt; assumption).
  assert (Hn0 : INR n <> 0) by (apply not_0_INR; lia).
  assert (Hmean : mean_of (repeat c n) = c).
  { unfold mean_of. rewrite repeat_length.
    rewrite (big_sum_ext _ (fun _ => c)) by exact Hnth.
    rewrite big_sum_const. field. exact Hn0. }
  assert (Hd : forall i, (i < n - 1)%nat -> successive_difference (repeat c n) i = 0).
  { intros i Hi. unfold successive_difference. rewrite !Hnth by lia. lra. }
  do 3 f_equal.
  - unfold population_std. rewrite Hmean, repeat_length.
    rewrite big_sum_zero by (intros i Hi; rewrite Hnth by exact Hi; ring).
    unfold Rdiv. rewrite Rmult_0_l. apply sqrt_0.
  - unfold rmssd_of. rewrite repeat_length.
    rewrite big_sum_zero by (intros i Hi; rewrite Hd by exact Hi; ring).
    unfold Rdiv. rewrite Rmult_0_l. apply sqrt_0.
  - unfold pnn50_of. rewrite repeat_length.
    rewrite (proj2 (count_nn50_zero _ _)).
    + cbn [INR]. unfold Rdiv. ring.
    + intros i Hi. rewrite Hd by exact Hi. rewrite Rabs_R0. lra.
Qed.

Lemma steady_rhythm_zero_hrv_witness :
  calculate_hrv (repeat 0.8 3) =
  Ok {| SDNN := Finite 0; RMSSD := Finite 0; pNN50 := Finite 0 |}.
Proof.
  apply (steady_rhythm_zero_hrv 0.8 3). lia.
Defined.

(** ** What [give_bpm_and_hrv] and [calculate_stress_score] can raise *)

Lemma calculate_hrv_nonempty (rr_intervals : list R) :
  rr_intervals <> [] -> exists h, calculate_hrv rr_intervals = Ok h.
Proof.
  intros Hne. unfold calculate_hrv, py_div.
  rewrite (proj2 (Reqb_false_iff _ _)); [cbn [bind]; eauto|].
  apply not_0_INR. rewrite length_map. destruct rr_intervals; cbn; congruence.
Qed.

(** On increasing peaks the estimator reaches the capability and answers
    as the capability does. *)
Lemma calculate_stress_score_run nk_hrv (peaks : list nat) (sampling_rate : Z) :
  peaks <> [] -> strictly_increasing peaks ->
  exists pulse_train,
    calculate_stress_score nk_hrv peaks sampling_rate =
    match nk_hrv pulse_train sampling_rate with
    | Ok hrv_metrics => Ok (table_get "HRV_SI" hrv_metrics)
    | Raise e => Raise e
    end.
Proof.
  intros Hne Hinc. unfold calculate_stress_score.
  destruct peaks as [|p0 rest] eqn:E; [congruence|]. rewrite <- E in *. cbn [bind].
  destruct (set_indices_spec peaks 1 (repeat 0 (last peaks O + 1)))
    as (train & Hset & _).
  { intros i Hi. rewrite repeat_length.
    pose proof (increasing_below_last _ _ Hinc Hi). lia. }
  exists train. rewrite Hset. cbn [bind].
  destruct (nk_hrv train sampling_rate); reflexivity.
Qed.



Lemma set_indices_out_of_bounds (idx : list nat) (v : R) :
  forall arr, (exists i, In i idx /\ (length arr <= i)%nat) ->
    set_indices arr idx v = Raise IndexError.
Proof.
  induction idx as [|a idx IH]; intros arr (i & Hi & Hlen); [contradiction|].
  cbn [set_indices]. destruct (Nat.ltb_spec a (length arr)) as [Ha|Ha]; [|reflexivity].
  apply IH. exists i. rewrite list_set_length. split; [|exact Hlen].
  destruct Hi as [->|Hi]; [lia|exact Hi].
Qed.

(** The stress estimator raises IndexError, without reaching the HRV
    capability, on an empty peak list and on one holding an index greater
    than its last element. *)
Theorem calculate_stress_score_index_error nk_hrv (peak_indices : list nat)
    (sampling_rate : Z) :
  peak_indices = [] \/ (exists p, In p peak_indices /\ (last peak_indices O < p)%nat) ->
  calculate_stress_score nk_hrv peak_indices sampling_rate = Raise IndexError.
Proof.
  intros [->|(p & Hp & Hlt)]; [reflexivity|].
  unfold calculate_stress_score.
  destruct peak_indices as [|p0 rest] eqn:E; [contradiction|]. rewrite <- E in *.
  cbn [bind]. rewrite set_indices_out_of_bounds; [reflexivity|].
  exists p. rewrite repeat_length. split; [exact Hp|lia].
Qed.

Lemma calculate_stress_score_index_error_witness :
  calculate_stress_score (fun _ _ => Ok []) [5%nat; 2%nat] 30 = Raise IndexError.
Proof.
  apply (calculate_stress_score_index_error (fun _ _ => Ok []) [5%nat; 2%nat] 30).
  right. exists 5%nat. split; [left; reflexivity|cbn; lia].
Defined.

(** ** Lengths through [process_signal] *)

Lemma envelope_extractor_Ok (filtered_signal : list R) (n : nat) (env : list R) :
  envelope_extractor filtered_signal n = Ok env ->
  (3 * Nat.max 1 n < length filtered_signal)%nat
  /\ length env = length filtered_signal.
Proof.
  unfold envelope_extractor.
  destruct (convolve _ _) as [c|e]; cbn [bind]; [|discriminate].
  destruct (filtfilt _ _ _) as [y|e] eqn:E; cbn [bind]; [|discriminate].
  intros [= <-]. apply filtfilt_Ok in E.
  rewrite !length_map, !repeat_length in E. lia.
Qed.

(** The stand-in design passes [filtfilt] on every signal longer than the
    pad. *)
Lemma filtfilt_sample_design (x : list R) (Wn : R) (bt : btype) :
  (18 < length x)%nat ->
  exists y, filtfilt (fst (sample_design 5 Wn bt)) (snd (sample_design 5 Wn bt)) x = Ok y.
Proof.
  intros Hx. unfold filtfilt, sample_design. cbn [fst snd repeat length Nat.max Nat.mul Nat.add].
  destruct (Nat.leb_spec (length x) 18) as [|_]; [lia|].
  unfold normalize_ba, pad_to. cbn [length Nat.max Nat.sub repeat app map].
  rewrite (proj2 (Reqb_false_iff 1 0)) by lra. cbn [bind].
  unfold lfilter_zi, Rsum. cbn [length Nat.ltb Nat.leb fold_left].
  rewrite (proj2 (Reqb_false_iff _ 0)) by lra. cbn [bind]. eauto.
Qed.

Lemma filter_all_sample_design (y : list R) :
  (18 < length y)%nat ->
  exists out, filter_all sample_design y 248 5 10 100 = Ok out.
Proof.
  intros Hy. unfold filter_all, butter_highpass, butter_lowpass, butter, py_div.
  rcompare. cbn [bind]. rcompare. cbn [orb bind].
  destruct (filtfilt_sample_design y (10 / (0.5 * 248)) high) as [hp Hhp]; [lia|].
  destruct (sample_design 5 (10 / (0.5 * 248)) high) as [b a] eqn:Eh. cbn [fst snd] in Hhp.
  rewrite Hhp. cbn [bind]. apply filtfilt_Ok in Hhp. destruct Hhp as [_ Hlen1].
  destruct (filtfilt_sample_design hp (100 / (0.5 * 248)) low) as [bp Hbp]; [lia|].
  destruct (sample_design 5 (100 / (0.5 * 248)) low) as [d c] eqn:El. cbn [fst snd] in Hbp.
  rewrite Hbp. cbn [bind]. eauto.
Qed.

Lemma process_signal_sample_design (y : list R) :
  (21 < length y)%nat ->
  exists env, process_signal sample_design y 5 10 100 248 7 = Ok env.
Proof.
  intros Hy. rewrite process_signal_envelope.
  destruct (filter_all_sample_design y) as [out Hout]; [lia|].
  rewrite Hout. cbn [bind]. apply filter_all_length in Hout.
  rewrite envelope_extractor_no_convolve.
  rewrite filtfilt_average by (rewrite length_map; lia). eauto.
Qed.

(** ** What the band-pass filter accepts *)

Lemma butter_Ok butter_design (N : nat) (Wn : R) (bt : btype) (ba : list R * list R) :
  butter butter_design N Wn bt = Ok ba -> 0 < Wn < 1.
Proof.
  unfold butter. destruct (Rleb Wn 0) eqn:E0; cbn [orb]; [discriminate|].
  destruct (Rleb 1 Wn) eqn:E1; [discriminate|].
  apply Rleb_false_iff in E0, E1. intros _. lra.
Qed.

Lemma butter_highpass_Ok butter_design (cutoff fs : R) (order : nat) (ba : list R * list R) :
  butter_highpass butter_design cutoff fs order = Ok ba ->
  fs <> 0 /\ 0 < cutoff / (0.5 * fs) < 1.
Proof.
  unfold butter_highpass, py_div. destruct (Reqb (0.5 * fs) 0) eqn:E; cbn [bind];
    [discriminate|].
  apply Reqb_false_iff in E. intros H. apply butter_Ok in H. split; [|exact H].
  intros ->. apply E. lra.
Qed.

Lemma butter_lowpass_Ok butter_design (cutoff fs : R) (order : nat) (ba : list R * list R) :
  butter_lowpass butter_design cutoff fs order = Ok ba ->
  fs <> 0 /\ 0 < cutoff / (0.5 * fs) < 1.
Proof.
  unfold butter_lowpass, py_div. destruct (Reqb (0.5 * fs) 0) eqn:E; cbn [bind];
    [discriminate|].
  apply Reqb_false_iff in E. intros H. apply butter_Ok in H. split; [|exact H].
  intros ->. apply E. lra.
Qed.

Lemma filter_all_lowpass_Ok butter_design (data : list R) (fs : R) (order : nat)
    (cutoff_high cutoff_low : R) (out : list R) :
  filter_all butter_design data fs order cutoff_high cutoff_low = Ok out ->
  exists ba hp,
    butter_highpass butter_design cutoff_high fs order = Ok ba
    /\ filtfilt (fst ba) (snd ba) data = Ok hp
    /\ exists dc, butter_lowpass butter_design cutoff_low fs order = Ok dc
                  /\ filtfilt (fst dc) (snd dc) hp = Ok out.
Proof.
  unfold filter_all.
  destruct (butter_highpass _ _ _ _) as [[b a]|e]; cbn [bind]; [|discriminate].
  destruct (filtfilt b a data) as [hp|e] eqn:E1; cbn [bind]; [|discriminate].
  destruct (butter_lowpass _ _ _ _) as [[d c]|e]; cbn [bind]; [|discriminate].
  destruct (filtfilt d c hp) as [bp|e] eqn:E2; cbn [bind]; [|discriminate].
  intros [= <-]. exists (b, a), hp. cbn [fst snd]. eauto 6.
Qed.

(** [filter_all] answers only when the sampling rate is not zero and both
    cutoffs, divided by the Nyquist frequency fs/2, lie strictly between 0 and
    1; its answer has as many samples as its input. *)
Theorem filter_all_Ok butter_design (data : list R) (fs : R) (order : nat)
    (cutoff_high cutoff_low : R) (out : list R) :
  filter_all butter_design data fs order cutoff_high cutoff_low = Ok out ->
  fs <> 0
  /\ 0 < cutoff_high / (0.5 * fs) < 1
  /\ 0 < cutoff_low / (0.5 * fs) < 1
  /\ length out = length data.
Proof.
  intros H. pose proof (filter_all_length _ _ _ _ _ _ _ H) as Hlen.
  apply filter_all_lowpass_Ok in H.
  destruct H as (ba & hp & Hhigh & _ & dc & Hlow & _).
  apply butter_highpass_Ok in Hhigh. apply butter_lowpass_Ok in Hlow.
  destruct Hhigh as [Hfs Hh], Hlow as [_ Hl]. auto.
Qed.

Lemma filter_all_Ok_witness :
  exists out,
    filter_all sample_design (repeat 0 19) 248 5 10 100 = Ok out
    /\ 248 <> 0
    /\ 0 < 10 / (0.5 * 248) < 1
    /\ 0 < 100 / (0.5 * 248) < 1
    /\ length out = length (repeat 0 19).
Proof.
  destruct (filter_all_sample_design (repeat 0 19)) as [out Hout]; [cbn; lia|].
  exists out. split; [exact Hout|].
  exact (filter_all_Ok sample_design (repeat 0 19) 248 5 10 100 out Hout).
Defined.

(** When [process_signal] returns an envelope, the input had more than
    3 * max(1, window) samples and the envelope has as many samples as the
    input. *)
Theorem process_signal_length butter_design (y : list R) (order : nat)
    (cutoff_high cutoff_low fs : R) (n : nat) (env : list R) :
  process_signal butter_design y order cutoff_high cutoff_low fs n = Ok env ->
  (3 * Nat.max 1 n < length y)%nat /\ length env = length y.
Proof.
  rewrite process_signal_envelope.
  destruct (filter_all _ _ _ _ _ _) as [f|e] eqn:E; cbn [bind]; [|discriminate].
  intros Henv. apply filter_all_length in E. apply envelope_extractor_Ok in Henv.
  rewrite <- E. exact Henv.
Qed.

Lemma process_signal_length_witness :
  exists env,
    process_signal sample_design (repeat 0 22) 5 10 100 248 7 = Ok env
    /\ (3 * Nat.max 1 7 < length (repeat 0%R 22))%nat
    /\ length env = length (repeat 0 22).
Proof.
  destruct (process_signal_sample_design (repeat 0 22)) as [env Henv]; [cbn; lia|].
  exists env. split; [exact Henv|].
  exact (process_signal_length sample_design (repeat 0 22) 5 10 100 248 7 env Henv).
Defined.

(** ** Sampling a frame *)

(** The window [s[(n-100)/2 : (n+100)/2]] of a sequence of n elements. *)
Lemma central_window_large {A : Type} (l : list A) :
  (100 <= length l)%nat ->
  length (py_slice l (Z.quot (Z.of_nat (length l) - 100) 2)
                     (Z.quot (Z.of_nat (length l) + 100) 2)) = 100%nat.
Proof.
  intros H. unfold py_slice, slice_index. rewrite length_firstn, length_skipn.
  destruct (Z.ltb_spec (Z.quot (Z.of_nat (length l) + 100) 2) 0),
           (Z.ltb_spec (Z.quot (Z.of_nat (length l) - 100) 2) 0);
    Z.to_euclidean_division_equations; lia.
Qed.

Lemma central_window_nonempty {A : Type} (l : list A) :
  (1 <= length l)%nat ->
  (1 <= length (py_slice l (Z.quot (Z.of_nat (length l) - 100) 2)
                           (Z.quot (Z.of_nat (length l) + 100) 2)))%nat.
Proof.
  intros H. unfold py_slice, slice_index. rewrite length_firstn, length_skipn.
  destruct (Z.ltb_spec (Z.quot (Z.of_nat (length l) + 100) 2) 0),
           (Z.ltb_spec (Z.quot (Z.of_nat (length l) - 100) 2) 0);
    Z.to_euclidean_division_equations; lia.
Qed.

Lemma py_slice_In {A : Type} (l : list A) (start stop : Z) (x : A) :
  In x (py_slice l start stop) -> In x l.
Proof.
  unfold py_slice. intros H.
  set (s := slice_index (length l) start) in *.
  set (e := slice_index (length l) stop) in *.
  rewrite <- (firstn_skipn s l). apply in_or_app. right.
  rewrite <- (firstn_skipn (e - s) (skipn s l)). apply in_or_app. left. exact H.
Qed.

Lemma fold_add_pixel (px : list pixel) :
  forall sumr sumg sumb n,
    fold_left add_pixel px (sumr, sumg, sumb, n) =
    (fold_left Rplus (map red_of px) sumr,
     fold_left Rplus (map green_of px) sumg,
     fold_left Rplus (map blue_of px) sumb,
     (n + length px)%nat).
Proof.
  induction px as [|[[j0 j1] j2] px IH]; intros sumr sumg sumb n; cbn [fold_left map length].
  - rewrite Nat.add_0_r. reflexivity.
  - cbn [add_pixel]. rewrite IH. unfold red_of, green_of, blue_of. cbn [fst snd].
    replace (S n + length px)%nat with (n + S (length px))%nat by lia. reflexivity.
Qed.

Lemma fold_rows_concat (g : list pixel -> list pixel) (rows : list (list pixel)) :
  forall acc,
    fold_left (fun acc row => fold_left add_pixel (g row) acc) rows acc =
    fold_left add_pixel (concat (map g rows)) acc.
Proof.
  induction rows as [|row rows IH]; intros acc; cbn [fold_left map concat]; [reflexivity|].
  rewrite fold_left_app. apply IH.
Qed.

(** [frame_sums] adds up exactly the pixels of the window. *)
Lemma frame_sums_window (f : frame) :
  frame_sums f =
  (Rsum (map red_of (window_of f)), Rsum (map green_of (window_of f)),
   Rsum (map blue_of (window_of f)), length (window_of f)).
Proof.
  unfold frame_sums.
  change (fold_left (fun acc row => fold_left add_pixel (window_pixels f row) acc)
            (window_rows f) (0, 0, 0, O) = 
          (Rsum (map red_of (window_of f)), Rsum (map green_of (window_of f)),
           Rsum (map blue_of (window_of f)), length (window_of f))).
  rewrite fold_rows_concat, fold_add_pixel. reflexivity.
Qed.

Lemma length_concat_const {A B : Type} (g : A -> list B) (rows : list A) (c : nat) :
  (forall row, In row rows -> length (g row) = c) ->
  length (concat (map g rows)) = (length rows * c)%nat.
Proof.
  induction rows as [|row rows IH]; intros H; cbn [map concat length]; [reflexivity|].
  rewrite length_app, H, IH by (intros; (left; reflexivity) || (apply H; right; assumption)).
  cbn. lia.
Qed.

Lemma rectangular_first_row (f : frame) (h w : nat) :
  rectangular f h w -> (1 <= h)%nat -> length (nth 0 f []) = w.
Proof.
  intros [Hh Hw] H1. apply Hw, nth_In. lia.
Qed.

Lemma window_pixels_length (f : frame) (h w : nat) (row : list pixel) :
  rectangular f h w -> (1 <= h)%nat -> In row (window_rows f) ->
  length (window_pixels f row) =
  length (py_slice row (Z.quot (Z.of_nat (length row) - 100) 2)
                       (Z.quot (Z.of_nat (length row) + 100) 2))
  /\ length row = w.
Proof.
  intros Hrect Hh Hrow. pose proof (rectangular_first_row _ _ _ Hrect Hh) as H0.
  destruct Hrect as [_ Hw]. apply py_slice_In in Hrow. apply Hw in Hrow.
  unfold window_pixels. rewrite H0, Hrow. auto.
Qed.

(** On a frame of at least 100 x 100 pixels the window has exactly
    100 x 100 pixels. *)
Lemma window_of_large (f : frame) (h w : nat) :
  rectangular f h w -> (100 <= h)%nat -> (100 <= w)%nat ->
  length (window_of f) = (100 * 100)%nat.
Proof.
  intros Hrect Hh Hw. unfold window_of.
  rewrite (length_concat_const _ _ 100).
  - unfold window_rows. rewrite central_window_large by (destruct Hrect; lia). reflexivity.
  - intros row Hrow.
    destruct (window_pixels_length f h w row Hrect ltac:(lia) Hrow) as [-> Hlen].
    apply central_window_large. lia.
Qed.

(** On a non-empty rectangular frame the window is not empty. *)
Lemma window_of_nonempty (f : frame) (h w : nat) :
  rectangular f h w -> (1 <= h)%nat -> (1 <= w)%nat ->
  (1 <= length (window_of f))%nat.
Proof.
  intros Hrect Hh Hw. unfold window_of.
  assert (Hrows : (1 <= length (window_rows f))%nat).
  { unfold window_rows. apply central_window_nonempty. destruct Hrect; lia. }
  destruct (window_rows f) as [|row rows] eqn:E; [cbn in Hrows; lia|].
  cbn [map concat]. rewrite length_app.
  destruct (window_pixels_length f h w row Hrect Hh) as [-> Hlen];
    [rewrite E; left; reflexivity|].
  pose proof (central_window_nonempty row ltac:(lia)). lia.
Qed.

Lemma rectangular_repeat (row : list pixel) (h : nat) :
  rectangular (repeat row h) h (length row).
Proof.
  split; [apply repeat_length|]. intros r Hr. apply repeat_spec in Hr. rewrite Hr. reflexivity.
Qed.

(** On a frame of at least 100 x 100 pixels, [frame_sums] adds up the three
    channels over exactly 100 x 100 pixels: 100 pixels of each of 100 rows. *)
Theorem frame_sums_large (f : frame) (h w : nat) :
  rectangular f h w -> (100 <= h)%nat -> (100 <= w)%nat ->
  length (window_rows f) = 100%nat
  /\ (forall row, In row (window_rows f) -> length (window_pixels f row) = 100%nat)
  /\ frame_sums f =
     (Rsum (map red_of (window_of f)), Rsum (map green_of (window_of f)),
      Rsum (map blue_of (window_of f)), (100 * 100)%nat).
Proof.
  intros Hrect Hh Hw. split; [|split].
  - unfold window_rows. apply central_window_large. destruct Hrect; lia.
  - intros row Hrow.
    destruct (window_pixels_length f h w row Hrect ltac:(lia) Hrow) as [-> Hlen].
    apply central_window_large. lia.
  - rewrite frame_sums_window, (window_of_large f h w) by assumption. reflexivity.
Qed.

Lemma frame_sums_large_witness :
  length (window_rows (repeat (repeat (0, 0, 0)%Z 120) 100)) = 100%nat
  /\ (forall row, In row (window_rows (repeat (repeat (0, 0, 0)%Z 120) 100)) ->
        length (window_pixels (repeat (repeat (0, 0, 0)%Z 120) 100) row) = 100%nat)
  /\ frame_sums (repeat (repeat (0, 0, 0)%Z 120) 100) =
     (Rsum (map red_of (window_of (repeat (repeat (0, 0, 0)%Z 120) 100))),
      Rsum (map green_of (window_of (repeat (repeat (0, 0, 0)%Z 120) 100))),
      Rsum (map blue_of (window_of (repeat (repeat (0, 0, 0)%Z 120) 100))),
      (100 * 100)%nat).
Proof.
  apply (frame_sums_large (repeat (repeat (0, 0, 0)%Z 120) 100) 100 120).
  - pose proof (rectangular_repeat (repeat (0, 0, 0)%Z 120) 100) as H.
    rewrite repeat_length in H. exact H.
  - lia.
  - lia.
Defined.

Lemma read_frames_step (f : frame) (rest : list frame) (R_ G_ B_ : list R) :
  (1 <= length (window_of f))%nat ->
  read_frames (f :: rest) R_ G_ B_ =
  read_frames rest
    (R_ ++ [Rsum (map red_of (window_of f)) / INR (length (window_of f))])
    (G_ ++ [Rsum (map green_of (window_of f)) / INR (length (window_of f))])
    (B_ ++ [Rsum (map blue_of (window_of f)) / INR (length (window_of f))]).
Proof.
  intros Hn. cbn [read_frames]. rewrite frame_sums_window. unfold py_div.
  rewrite (proj2 (Reqb_false_iff _ _)) by (apply not_0_INR; lia). reflexivity.
Qed.

(** Reading frames never divides by zero on non-empty rectangular frames:
    every frame adds one sample to each of the three colour signals. *)
Theorem read_frames_total (fs : list frame) :
  (forall f, In f fs -> exists h w, rectangular f h w /\ (1 <= h)%nat /\ (1 <= w)%nat) ->
  forall R_ G_ B_, exists R' G' B',
    read_frames fs R_ G_ B_ = Ok (R', G', B')
    /\ length R' = (length R_ + length fs)%nat
    /\ length G' = (length G_ + length fs)%nat
    /\ length B' = (length B_ + length fs)%nat.
Proof.
  induction fs as [|f fs IH]; intros Hwf R_ G_ B_.
  - exists R_, G_, B_. cbn. repeat split; lia.
  - destruct (Hwf f) as (h & w & Hrect & Hh & Hw); [left; reflexivity|].
    rewrite read_frames_step by (apply (window_of_nonempty f h w); assumption).
    edestruct IH as (R' & G' & B' & E & HR & HG & HB);
      [intros g Hg; apply Hwf; right; exact Hg|].
    exists R', G', B'. rewrite E. rewrite HR, HG, HB, !length_app. cbn [length].
    repeat split; lia.
Qed.

Lemma read_frames_total_witness :
  exists R' G' B',
    read_frames (repeat [[(0, 0, 0)%Z]] 10) [] [] [] = Ok (R', G', B')
    /\ length R' = (length (@nil R) + length (repeat [[(0, 0, 0)%Z]] 10))%nat
    /\ length G' = (length (@nil R) + length (repeat [[(0, 0, 0)%Z]] 10))%nat
    /\ length B' = (length (@nil R) + length (repeat [[(0, 0, 0)%Z]] 10))%nat.
Proof.
  apply (read_frames_total (repeat [[(0, 0, 0)%Z]] 10)).
  intros f Hf. apply repeat_spec in Hf. rewrite Hf. exists 1%nat, 1%nat.
  split; [|lia]. split; [reflexivity|]. intros row [<-|[]]. reflexivity.
Defined.

Lemma Rsum_map_const {A : Type} (g : A -> R) (l : list A) (c : R) :
  (forall x, In x l -> g x = c) -> Rsum (map g l) = INR (length l) * c.
Proof.
  induction l as [|x l IH]; intros H.
  - unfold Rsum. cbn. lra.
  - cbn [map]. rewrite Rsum_cons, IH, H by (intros; (left; reflexivity) || (apply H; right; assumption)).
    change (length (x :: l)) with (S (length l)). rewrite S_INR. lra.
Qed.

Lemma window_of_In (f : frame) (j : pixel) :
  In j (window_of f) -> exists row, In row f /\ In j row.
Proof.
  unfold window_of. intros H. apply in_concat in H. destruct H as (px & Hpx & Hj).
  apply in_map_iff in Hpx. destruct Hpx as (row & <- & Hrow).
  exists row. split; [apply (py_slice_In _ _ _ _ Hrow)|].
  unfold window_pixels in Hj. apply (py_slice_In _ _ _ _ Hj).
Qed.

(** A non-empty rectangular frame of one solid colour (b, g, r) gives the
    samples r, g and b to the signals R, G and B: the loops read the red
    channel from position 2 of a pixel and the blue one from position 0. *)
Theorem solid_frame_samples (f : frame) (h w : nat) (cb cg cr : Z) (R_ G_ B_ : list R) :
  rectangular f h w -> (1 <= h)%nat -> (1 <= w)%nat ->
  (forall row j, In row f -> In j row -> j = (cb, cg, cr)) ->
  exists r g b,
    read_frames [f] R_ G_ B_ = Ok (R_ ++ [r], G_ ++ [g], B_ ++ [b])
    /\ r = IZR cr /\ g = IZR cg /\ b = IZR cb.
Proof.
  intros Hrect Hh Hw Hsolid.
  pose proof (window_of_nonempty f h w Hrect Hh Hw) as Hn.
  rewrite read_frames_step by exact Hn. cbn [read_frames].
  do 3 eexists. split; [reflexivity|].
  assert (Hn0 : INR (length (window_of f)) <> 0) by (apply not_0_INR; lia).
  assert (Hpix : forall j, In j (window_of f) -> j = (cb, cg, cr)).
  { intros j Hj. destruct (window_of_In f j Hj) as (row & Hrow & Hjr). eauto. }
  repeat split.
  - rewrite (Rsum_map_const red_of _ (IZR cr)); [field; exact Hn0|].
    intros j Hj. rewrite (Hpix j Hj). reflexivity.
  - rewrite (Rsum_map_const green_of _ (IZR cg)); [field; exact Hn0|].
    intros j Hj. rewrite (Hpix j Hj). reflexivity.
  - rewrite (Rsum_map_const blue_of _ (IZR cb)); [field; exact Hn0|].
    intros j Hj. rewrite (Hpix j Hj). reflexivity.
Qed.

Lemma solid_frame_samples_witness :
  exists r g b,
    read_frames [repeat (repeat (10, 20, 30)%Z 4) 3] [] [] [] = Ok ([] ++ [r], [] ++ [g], [] ++ [b])
    /\ r = IZR 30 /\ g = IZR 20 /\ b = IZR 10.
Proof.
  apply (solid_frame_samples (repeat (repeat (10, 20, 30)%Z 4) 3) 3 4 10 20 30 [] [] []).
  - pose proof (rectangular_repeat (repeat (10, 20, 30)%Z 4) 3) as H.
    rewrite repeat_length in H. exact H.
  - lia.
  - lia.
  - intros row j Hrow Hj. apply repeat_spec in Hrow. subst row.
    apply repeat_spec in Hj. exact Hj.
Defined.

(** ** The request handler *)

Lemma py_int_upper (r : R) (z : Z) :
  (0 <= z)%Z -> r < IZR (z + 1) -> (py_int r <= z)%Z.
Proof.
  intros Hz Hr. unfold py_int. destruct (Rle_dec 0 r) as [H|H].
  - destruct (base_Int_part r) as [Hlo _].
    assert (IZR (Int_part r) < IZR (z + 1)) by lra. apply lt_IZR in H0. lia.
  - destruct (base_Int_part (- r)) as [_ Hhi].
    assert (IZR (-1) < IZR (Int_part (- r))) by (cbn; lra). apply lt_IZR in H0. lia.
Qed.

(** With the handler's cutoffs (10 and 100) a sampling rate of at most 200
    is refused by the band-pass filter. *)
Lemma process_signal_low_rate butter_design (y : list R) (fs : R) (n : nat) :
  fs <= 200 ->
  exists e, process_signal butter_design y 5 10 100 fs n = Raise e.
Proof.
  intros Hfs. rewrite process_signal_envelope.
  destruct (filter_all _ _ _ _ _ _) as [f|e] eqn:E; cbn [bind]; [exfalso|eauto].
  apply filter_all_lowpass_Ok in E. destruct E as (_ & _ & _ & _ & dc & Hlow & _).
  apply butter_lowpass_Ok in Hlow. destruct Hlow as [Hne [Hpos Hlt]].
  assert (Hd : 0 < 0.5 * fs).
  { destruct (Rlt_le_dec 0 (0.5 * fs)) as [|Hneg]; [assumption|exfalso].
    assert (0.5 * fs < 0) by (destruct Hneg; [assumption|exfalso; apply Hne; lra]).
    assert (/ (0.5 * fs) < 0) by (apply Rinv_lt_0_compat; assumption).
    unfold Rdiv in Hpos. nra. }
  assert (100 < 0.5 * fs).
  { apply (Rmult_lt_compat_r (0.5 * fs)) in Hlt; [|exact Hd].
    unfold Rdiv in Hlt. rewrite Rmult_assoc, Rinv_l in Hlt by lra. lra. }
  lra.
Qed.

Lemma give_bpm_and_hrv_returns nk_hrv (averaged : list R) (time_bw_fram : R) :
  averaged <> [] -> time_bw_fram <> 0 ->
  (forall pulse_train sampling_rate, exists m, nk_hrv pulse_train sampling_rate = Ok m) ->
  exists res, give_bpm_and_hrv nk_hrv averaged time_bw_fram = Ok res.
Proof.
  intros Hne Ht Hnk. rewrite give_bpm_and_hrv_components.
  destruct (peak_detector_nonempty averaged Hne) as [peaks Hdet]. rewrite Hdet. cbn [bind].
  destruct (Nat.leb_spec (length peaks) 1) as [Hle|Hgt]; [eauto|].
  destruct (calculate_hrv_nonempty (fst (interval_analyzer peaks time_bw_fram))) as [h Hh].
  { unfold interval_analyzer. cbn [fst]. intros E.
    apply (f_equal (@length R)) in E. rewrite rr_intervals_of_length in E. cbn in E. lia. }
  rewrite Hh. cbn [bind]. unfold py_div.
  rewrite (proj2 (Reqb_false_iff _ _)) by exact Ht. cbn [bind].
  destruct (calculate_stress_score_run nk_hrv peaks (py_int (1 / time_bw_fram)))
    as [train Hrun].
  { destruct peaks; cbn in *; [lia|congruence]. }
  { exact (peak_detector_increasing _ _ Hdet). }
  rewrite Hrun. destruct (Hnk train (py_int (1 / time_bw_fram))) as [m ->]. cbn [bind]. eauto.
Qed.

(** A clip of under 25 frames per second is never processed: the sampling
    rate 8 * int(fps + 1) handed to the band-pass filter is then at most 200
    and the handler raises. *)
Theorem low_frame_rate_raises butter_design nk_hrv VideoCapture (query : string) :
  isOpened (VideoCapture query) = true ->
  py_int (CAP_PROP_FRAME_COUNT (VideoCapture query)) <> 0%Z ->
  CAP_PROP_FPS (VideoCapture query) < 25 ->
  exists e, get_beats_per_min butter_design nk_hrv VideoCapture query = Raise e.
Proof.
  intros Hopen Hcount Hfps. unfold get_beats_per_min. rewrite Hopen. cbn [negb].
  destruct (Z.eqb_spec (py_int (CAP_PROP_FRAME_COUNT (VideoCapture query))) 0) as [|_];
    [contradiction|].
  destruct (py_div 1 (CAP_PROP_FPS (VideoCapture query))) as [t|e]; cbn [bind]; [|eauto].
  destruct (read_frames (frames (VideoCapture query)) [] [] []) as [[[R_ G_] B_]|e];
    cbn [bind]; [|eauto].
  assert (Hk : (py_int (CAP_PROP_FPS (VideoCapture query) + 1) <= 25)%Z).
  { apply py_int_upper; [lia|]. replace (IZR (25 + 1)) with 26 by (cbn; lra). lra. }
  destruct (process_signal_low_rate butter_design (py_slice R_ 100 (-100))
              (IZR (8 * py_int (CAP_PROP_FPS (VideoCapture query) + 1))) 7) as [e He].
  { rewrite mult_IZR. apply IZR_le in Hk. lra. }
  rewrite He. cbn [bind]. eauto.
Qed.

Lemma low_frame_rate_raises_witness :
  exists e,
    get_beats_per_min sample_design (fun _ _ => Ok []) (fun _ => slow_clip) "clip.mp4"
    = Raise e.
Proof.
  apply (low_frame_rate_raises sample_design (fun _ _ => Ok []) (fun _ => slow_clip)
           "clip.mp4").
  - reflexivity.
  - cbn [slow_clip CAP_PROP_FRAME_COUNT]. rewrite py_int_IZR. discriminate.
  - cbn [slow_clip CAP_PROP_FPS]. lra.
Defined.

(** When the handler returns a result the clip opened, reported a non-zero
    frame count, runs at 25 frames per second or more and decoded to at
    least 222 frames; the returned signal has 200 samples fewer than there
    were frames, and the figures are those of [give_bpm_and_hrv] on it with
    the interval 1 / fps. *)
Theorem get_beats_per_min_result butter_design nk_hrv VideoCapture (query : string)
    (r_avg : list R) (bpm : npfloat) (hrv : HRVMetrics) (stress : option npfloat) :
  get_beats_per_min butter_design nk_hrv VideoCapture query
  = Ok (ResultBody r_avg bpm hrv stress) ->
  isOpened (VideoCapture query) = true
  /\ py_int (CAP_PROP_FRAME_COUNT (VideoCapture query)) <> 0%Z
  /\ 25 <= CAP_PROP_FPS (VideoCapture query)
  /\ (222 <= length (frames (VideoCapture query)))%nat
  /\ length r_avg = (length (frames (VideoCapture query)) - 200)%nat
  /\ give_bpm_and_hrv nk_hrv r_avg (1 / CAP_PROP_FPS (VideoCapture query))
     = Ok {| BPM := bpm; HRV := hrv; Stress_Score := stress |}.
Proof.
  unfold get_beats_per_min.
  destruct (isOpened (VideoCapture query)) eqn:Hopen; cbn [negb]; [|discriminate].
  destruct (Z.eqb_spec (py_int (CAP_PROP_FRAME_COUNT (VideoCapture query))) 0) as [|Hcount];
    [discriminate|].
  unfold py_div at 1.
  destruct (Reqb (CAP_PROP_FPS (VideoCapture query)) 0); cbn [bind]; [discriminate|].
  destruct (read_frames (frames (VideoCapture query)) [] [] []) as [[[R_ G_] B_]|e] eqn:Eread;
    cbn [bind]; [|discriminate].
  apply read_frames_length in Eread. cbn [length Nat.add] in Eread.
  destruct (process_signal _ _ _ _ _ _ _) as [env|e] eqn:Eproc; cbn [bind]; [|discriminate].
  destruct (give_bpm_and_hrv _ _ _) as [[b h s]|e] eqn:Egive; cbn [bind]; [|discriminate].
  intros [= <- <- <- <-]. cbn [BPM HRV Stress_Score] in *.
  pose proof (process_signal_length _ _ _ _ _ _ _ _ Eproc) as [Hlong Hlen].
  rewrite trim_length, Eread in Hlong, Hlen. cbn in Hlong.
  split; [reflexivity|]. split; [exact Hcount|]. split.
  - destruct (Rlt_le_dec (CAP_PROP_FPS (VideoCapture query)) 25) as [Hlow|]; [exfalso|assumption].
    assert (Hk : (py_int (CAP_PROP_FPS (VideoCapture query) + 1) <= 25)%Z).
    { apply py_int_upper; [lia|]. replace (IZR (25 + 1)) with 26 by (cbn; lra). lra. }
    destruct (process_signal_low_rate butter_design (py_slice R_ 100 (-100))
                (IZR (8 * py_int (CAP_PROP_FPS (VideoCapture query) + 1))) 7) as [e He].
    { rewrite mult_IZR. apply IZR_le in Hk. lra. }
    congruence.
  - split; [lia|]. split; [exact Hlen|exact Egive].
Qed.

Lemma get_beats_per_min_long_clip :
  exists r_avg bpm hrv stress,
    get_beats_per_min sample_design (fun _ _ => Ok []) (fun _ => long_clip) "clip.mp4"
    = Ok (ResultBody r_avg bpm hrv stress).
Proof.
  unfold get_beats_per_min, long_clip.
  cbn [isOpened negb CAP_PROP_FPS CAP_PROP_FRAME_COUNT frames].
  rewrite py_int_IZR. cbn [Z.eqb].
  unfold py_div at 1. rcompare. cbn [bind].
  destruct (read_frames_black 222 [] [] []) as (R' & G' & B' & E & Hlen).
  rewrite E. cbn [bind].
  replace (30 + 1) with 31 by lra. rewrite py_int_IZR.
  cbn [Z.mul Pos.mul Pos.add Pos.succ].
  destruct (process_signal_sample_design (py_slice R' 100 (-100))) as [env Henv].
  { rewrite trim_length, Hlen. cbn. lia. }
  rewrite Henv. cbn [bind].
  destruct (give_bpm_and_hrv_returns (fun _ _ => Ok []) env (1 / 30)) as [res Hres].
  - apply process_signal_length in Henv. destruct Henv as [_ Henv].
    rewrite trim_length, Hlen in Henv. intros ->. cbn in Henv. lia.
  - lra.
  - intros. eauto.
  - rewrite Hres. cbn [bind]. eauto.
Qed.

Lemma get_beats_per_min_result_witness :
  exists r_avg bpm hrv stress,
    get_beats_per_min sample_design (fun _ _ => Ok []) (fun _ => long_clip) "clip.mp4"
    = Ok (ResultBody r_avg bpm hrv stress)
    /\ isOpened long_clip = true
    /\ py_int (CAP_PROP_FRAME_COUNT long_clip) <> 0%Z
    /\ 25 <= CAP_PROP_FPS long_clip
    /\ (222 <= length (frames long_clip))%nat
    /\ length r_avg = (length (frames long_clip) - 200)%nat
    /\ give_bpm_and_hrv (fun _ _ => Ok []) r_avg (1 / CAP_PROP_FPS long_clip)
       = Ok {| BPM := bpm; HRV := hrv; Stress_Score := stress |}.
Proof.
  destruct get_beats_per_min_long_clip as (r_avg & bpm & hrv & stress & H).
  exists r_avg, bpm, hrv, stress. split; [exact H|].
  exact (get_beats_per_min_result sample_design (fun _ _ => Ok []) (fun _ => long_clip)
           "clip.mp4" r_avg bpm hrv stress H).
Defined.

(** The handler answers with an error body in two cases only, each with its
    own message: the source did not open, or it opened and reports a frame
    count of zero. *)
Theorem get_beats_per_min_error_body butter_design nk_hrv VideoCapture (query msg : string) :
  get_beats_per_min butter_design nk_hrv VideoCapture query = Ok (ErrorBody msg)
  <-> (isOpened (VideoCapture query) = false
       /\ msg = "Video file could not be opened. Please check the path."%string)
      \/ (isOpened (VideoCapture query) = true
          /\ py_int (CAP_PROP_FRAME_COUNT (VideoCapture query)) = 0%Z
          /\ msg = "Video contains no frames."%string).
Proof.
  split.
  - unfold get_beats_per_min.
    destruct (isOpened (VideoCapture query)) eqn:Hopen; cbn [negb].
    + destruct (Z.eqb_spec (py_int (CAP_PROP_FRAME_COUNT (VideoCapture query))) 0)
        as [Hcount|Hcount].
      * intros [= <-]. right. auto.
      * destruct (py_div _ _) as [t|e]; cbn [bind]; [|discriminate].
        destruct (read_frames _ _ _ _) as [[[R_ G_] B_]|e]; cbn [bind]; [|discriminate].
        destruct (process_signal _ _ _ _ _ _ _) as [env|e]; cbn [bind]; [|discriminate].
        destruct (give_bpm_and_hrv _ _ _) as [res|e]; cbn [bind]; discriminate.
    + intros [= <-]. left. auto.
  - intros [[Hopen ->]|(Hopen & Hcount & ->)].
    + apply get_beats_per_min_unopened, Hopen.
    + apply get_beats_per_min_no_frames; assumption.
Qed.

(** ** Only the red channel matters *)

Lemma py_slice_map {A B : Type} (g : A -> B) (l : list A) (start stop : Z) :
  py_slice (map g l) start stop = map g (py_slice l start stop).
Proof.
  unfold py_slice. rewrite length_map, skipn_map, firstn_map. reflexivity.
Qed.

Lemma window_of_map (g : pixel -> pixel) (f : frame) :
  window_of (map (map g) f) = map g (window_of f).
Proof.
  unfold window_of, window_rows, window_pixels.
  rewrite length_map, py_slice_map, map_map, concat_map, map_map.
  f_equal. apply map_ext. intros row.
  change (@nil pixel) with (map g []) at 1 2. rewrite map_nth, length_map.
  apply py_slice_map.
Qed.

Lemma read_frames_map_pixels (g : pixel -> pixel) (fs : list frame) :
  (forall j, red_of (g j) = red_of j) ->
  forall R_ G1 B1 G2 B2,
    match read_frames fs R_ G1 B1 with
    | Ok (R', _, _) =>
        exists G' B', read_frames (map (map (map g)) fs) R_ G2 B2 = Ok (R', G', B')
    | Raise e => read_frames (map (map (map g)) fs) R_ G2 B2 = Raise e
    end.
Proof.
  intros Hred. induction fs as [|f fs IH]; intros R_ G1 B1 G2 B2.
  - cbn. eauto.
  - cbn [map read_frames]. rewrite !frame_sums_window, window_of_map, !length_map.
    rewrite (map_map g red_of). rewrite (map_ext _ _ Hred).
    unfold py_div. destruct (Reqb (INR (length (window_of f))) 0); cbn [bind];
      [reflexivity|].
    apply IH.
Qed.

(** The handler's answer depends on the red channel alone: changing the
    green and blue values of the pixels changes neither the result nor the
    error. *)
Theorem get_beats_per_min_red_only butter_design nk_hrv VideoCapture
    (g : pixel -> pixel) (query : string) :
  (forall j, red_of (g j) = red_of j) ->
  get_beats_per_min butter_design nk_hrv (fun q => map_pixels g (VideoCapture q)) query
  = get_beats_per_min butter_design nk_hrv VideoCapture query.
Proof.
  intros Hred. unfold get_beats_per_min.
  cbn [map_pixels isOpened CAP_PROP_FPS CAP_PROP_FRAME_COUNT frames].
  destruct (negb (isOpened (VideoCapture query))); [reflexivity|].
  destruct (py_int (CAP_PROP_FRAME_COUNT (VideoCapture query)) =? 0)%Z; [reflexivity|].
  destruct (py_div 1 (CAP_PROP_FPS (VideoCapture query))) as [t|e]; cbn [bind];
    [|reflexivity].
  pose proof (read_frames_map_pixels g (frames (VideoCapture query)) Hred [] [] [] [] [])
    as H.
  destruct (read_frames (frames (VideoCapture query)) [] [] []) as [[[R_ G_] B_]|e].
  - destruct H as (G' & B' & ->). reflexivity.
  - rewrite H. reflexivity.
Qed.

Lemma get_beats_per_min_red_only_witness :
  get_beats_per_min sample_design (fun _ _ => Ok [])
    (fun q => map_pixels keep_red ((fun _ => long_clip) q)) "clip.mp4"
  = get_beats_per_min sample_design (fun _ _ => Ok []) (fun _ => long_clip) "clip.mp4".
Proof.
  apply (get_beats_per_min_red_only sample_design (fun _ _ => Ok []) (fun _ => long_clip)
           keep_red "clip.mp4").
  intros [[j0 j1] j2]. reflexivity.
Defined.

(** ** The highest pulse is found *)

Lemma last_nth_R (l : list R) (d : R) : last l d = nth (length l - 1) l d.
Proof.
  induction l as [|x [|y l] IH]; try reflexivity.
  change (last (y :: l) d = nth (length (y :: l) - 1) (y :: l) d) in IH.
  change (last (x :: y :: l) d) with (last (y :: l) d). rewrite IH. cbn.
  rewrite Nat.sub_0_r. reflexivity.
Qed.

(** The first position of a value that occurs in a signal. *)
Lemma first_occurrence (x : list R) (v : R) :
  In v x ->
  exists l, (l < length x)%nat /\ nth l x 0 = v
            /\ forall k, (k < l)%nat -> nth k x 0 <> v.
Proof.
  induction x as [|a x IH]; intros Hin; [contradiction|].
  destruct (Req_dec_T a v) as [->|Hne].
  - exists 0%nat. cbn. split; [lia|]. split; [reflexivity|]. intros k Hk. lia.
  - destruct Hin as [E|Hin]; [contradiction|].
    destruct (IH Hin) as (l & Hl & Hv & Hfirst).
    exists (S l). cbn [length nth]. split; [lia|]. split; [exact Hv|].
    intros [|k] Hk; [exact Hne|]. apply Hfirst. lia.
Qed.

Lemma maximum_unique (x : list R) (m1 m2 : R) :
  is_maximum m1 x -> is_maximum m2 x -> m1 = m2.
Proof.
  intros [I1 U1] [I2 U2]. apply Rle_antisym; auto.
Qed.

(** When the first and the last sample of the envelope are below its
    maximum, the peak detector finds at least one peak, at the height of the
    maximum. *)
Theorem highest_pulse_found (averaged : list R) (hi : R) :
  is_maximum hi averaged ->
  nth 0 averaged 0 < hi -> last averaged 0 < hi ->
  exists peaks p,
    peak_detector averaged = Ok peaks /\ In p peaks /\ nth p averaged 0 = hi.
Proof.
  intros Hmax Hfirst Hlast. pose proof Hmax as [Hin Hub].
  assert (Hne : averaged <> []) by (intros ->; contradiction).
  destruct (peak_detector_nonempty _ Hne) as [peaks Hdet].
  destruct (peak_detector_Ok _ _ Hdet) as (lo & hi' & Hlo & Hhi & Hpeaks).
  apply py_min_spec in Hlo. apply py_max_spec in Hhi.
  rewrite (maximum_unique _ _ _ Hhi Hmax) in Hpeaks. clear hi' Hhi.
  destruct (first_occurrence _ _ Hin) as (l & Hl & Hv & Hbefore).
  rewrite last_nth_R in Hlast.
  assert (Hl0 : (0 < l)%nat).
  { destruct l; [rewrite Hv in Hfirst; lra|lia]. }
  assert (Hl1 : (l < length averaged - 1)%nat).
  { destruct (Nat.eq_dec l (length averaged - 1)) as [E|]; [|lia].
    rewrite <- E, Hv in Hlast. lra. }
  assert (Hbelow : forall k, (k < length averaged)%nat -> nth k averaged 0 <= hi)
    by (intros k Hk; apply Hub, nth_In, Hk).
  destruct (look_ahead_spec averaged hi (length averaged - 1) (length averaged) (l + 1))
    as (H1 & H2 & H3 & H4); [lia|].
  set (ia := look_ahead (length averaged) averaged hi (l + 1) (length averaged - 1)) in *.
  assert (Hia : (ia <= length averaged - 1)%nat) by (apply H2; lia).
  assert (Hdown : nth ia averaged 0 < hi).
  { destruct (Nat.eq_dec ia (length averaged - 1)) as [->|Hlt]; [exact Hlast|].
    specialize (H4 ltac:(lia)). specialize (Hbelow ia ltac:(lia)). lra. }
  assert (Hplat : plateau averaged l (ia - 1)).
  { unfold plateau. rewrite Hv. split; [exact Hl0|]. split; [lia|]. split; [lia|].
    split; [|split].
    - intros k Hk. destruct (Nat.eq_dec k l) as [->|]; [exact Hv|]. apply H3. lia.
    - specialize (Hbefore (l - 1)%nat ltac:(lia)).
      specialize (Hbelow (l - 1)%nat ltac:(lia)). lra.
    - replace (ia - 1 + 1)%nat with ia by lia. exact Hdown. }
  destruct (plateau_midpoint _ _ _ Hplat) as [_ Hmid]. rewrite Hv in Hmid.
  exists peaks, ((l + (ia - 1)) / 2)%nat. split; [exact Hdet|]. split; [|exact Hmid].
  rewrite Hpeaks. apply find_peaks_spec. split; [eauto|].
  rewrite Hmid. destruct Hlo as [Hlo_in Hlo_le]. specialize (Hub lo Hlo_in). lra.
Qed.

Lemma highest_pulse_found_witness :
  exists peaks p,
    peak_detector [0; 1; 1; 0] = Ok peaks /\ In p peaks /\ nth p [0; 1; 1; 0] 0 = 1.
Proof.
  apply (highest_pulse_found [0; 1; 1; 0] 1).
  - split; [right; left; reflexivity|].
    intros v [<-|[<-|[<-|[<-|[]]]]]; lra.
  - cbn. lra.
  - cbn. lra.
Defined.

(** ** HRV metrics under a shift of the intervals *)






(** ** Amplitude and offset of the envelope do not matter *)


Section Rescale.

Variables a b : R.
Hypothesis a_positive : 0 < a.

Let g (v : R) : R := a * v + b.










End Rescale.


